(** * Interior ballistics of straight-walled cartridges

    A shallow embedding of [units.py], [curves.py] and [cartridges.py].

    Numbers.  The program computes with binary64 floats (Python [float] and
    numpy [float64]).  They are idealised here as the real numbers [R]:
    rounding, [inf] and [nan] are outside the model.  Where numpy divides by
    zero, overflows or raises a non-positive base to a real power it yields
    [inf]/[nan], warns and goes on; the total operations of [R] stand in for
    these cases, and every theorem that depends on the value of such an
    operation carries the hypotheses under which it is the real one.

    Errors.  Two operations on plain Python floats raise: the division
    raises [ZeroDivisionError] on a zero divisor, and the builtin [pow]
    raises [OverflowError] when its result is beyond the largest float.
    The other operations on Python floats ([+], [-], [*]) and everything
    on numpy scalars return.  The two exceptions are threaded through a
    small error monad, in the order in which the source evaluates. *)

From Stdlib Require Import Reals Lra Lia ZArith.
From stdpp Require Import base list.

Open Scope R_scope.

(** ** units.py *)

Module u.
Definition mm     : R := 0.001.
Definition inch   : R := 0.0254.
Definition ft     : R := 12 * inch.
Definition ksi    : R := 6.89475908677537e6.
Definition psi    : R := 6894.75729.
Definition lb     : R := 0.453592.
Definition oz     : R := lb / 16.0.
Definition lbf    : R := 4.44822.
Definition ozf    : R := lbf / 16.0.
Definition grains : R := 6.479891e-5.
Definition g      : R := 9.81.
End u.

(** ** curves.py *)

(** [py_exp] is pylab's [exp]. *)
Definition py_exp : R -> R := exp.

Definition sigmoid (x alpha x_0 : R) : R :=
  1 / (1 + py_exp (- alpha * (x - x_0))).

(** ** Exceptions *)

Inductive exn : Type := ZeroDivisionError | OverflowError.

Inductive result (A : Type) : Type :=
| Ok (a : A)
| Raise (e : exn).
Arguments Ok {A} a.
Arguments Raise {A} e.

#[global] Instance result_ret : MRet result := fun A a => Ok a.
#[global] Instance result_bind : MBind result := fun A B f m =>
  match m with
  | Ok a => f a
  | Raise e => Raise e
  end.

(** [a / b] on Python floats. *)
Definition py_div (a b : R) : result R :=
  if Req_dec_T b 0 then Raise ZeroDivisionError else Ok (a / b).

(** [int(r)]: truncation towards zero. *)
Definition py_int (r : R) : Z :=
  if Rle_dec 0 r then Int_part r else (- Int_part (- r))%Z.

(** [sys.float_info.max], the largest finite float. *)
Definition float_max : R := IZR (2 ^ 1024 - 2 ^ 971).

(** [pow(b, e)] on a Python float [b] with a whole exponent [e] ([2] or
    [2.0] in the source): the builtin raises [OverflowError] when the
    result is out of the range of the floats.  The test is on the exact
    power; for a square this loses nothing, the largest float whose square
    rounds to a float being [2^512 * (1 - 2^-53)], whose exact square is
    below [float_max]. *)
Definition py_pow (b : R) (e : nat) : result R :=
  if Rle_dec (Rabs (b ^ e)) float_max then Ok (b ^ e) else Raise OverflowError.

(** [pow(b, e)] on a numpy scalar [b] with a float exponent, for a positive
    base; for another base numpy warns and yields [0], [inf] or [nan],
    which [Rpower] does not follow. *)
Definition np_pow (b e : R) : R := Rpower b e.

(** ** cartridges.py: the parameter bundle *)

Record Cartridge : Type := mkCartridge {
  m_bullet   : R;   (* Bullet weight *)
  d_chamber  : R;   (* Chamber diameter *)
  d_case     : R;   (* Inside case diameter *)
  l_case     : R;   (* Case length *)
  l_case_i   : R;   (* Case inside length *)
  l_round    : R;   (* Overall round length *)
  yield_case : R;   (* Case yield strength, Pa *)
  uts_case   : R;   (* Case ultimate strength, Pa *)
  gamma_case : R;   (* Case wall modulus of elasticity, Pa *)
  u_cw       : R;   (* Case-chamber wall friction coefficient *)
  p_peak     : R;   (* Peak sigmoid chamber pressure *)
  t_peak     : R;   (* Seconds *)
  alpha_s    : R;   (* Combustion pressure timeconstant, 0-peak *)
  gama       : R    (* Specific heat ratio *)
}.

(** [Cartridge.__init__] *)
Definition Cartridge_init : Cartridge :=
  let t_peak := 5e-4 in
  {| m_bullet := -1; d_chamber := -1; d_case := -1;
     l_case := -1; l_case_i := -1; l_round := -1;
     yield_case := 200e6; uts_case := 550e6; gamma_case := 97e9;
     u_cw := 0.1;
     p_peak := 55 * u.ksi; t_peak := t_peak; alpha_s := 6.0 / t_peak;
     gama := 1.3 |}.

(** [CCCIMiniMag.__init__]: the base initialiser, then the assignments. *)
Definition CCCIMiniMag : Cartridge :=
  let self := Cartridge_init in
  let t_peak := 5e-4 in
  {| m_bullet := 40 * u.grains; d_chamber := 0.223 * u.inch;
     d_case := 0.203 * u.inch; l_case := 0.55 * u.inch;
     l_case_i := 0.50 * u.inch; l_round := 1.25 * u.inch;
     yield_case := yield_case self; uts_case := uts_case self;
     gamma_case := gamma_case self; u_cw := u_cw self;
     p_peak := 55 * u.ksi; t_peak := t_peak; alpha_s := 6.0 / t_peak;
     gama := 1.3 |}.

(** [C22_Al.__init__] *)
Definition C22_Al : Cartridge :=
  let self := CCCIMiniMag in
  let t_peak := 5e-4 in
  {| m_bullet := m_bullet self; d_chamber := d_chamber self;
     d_case := d_case self; l_case := l_case self;
     l_case_i := l_case_i self; l_round := l_round self;
     yield_case := yield_case self; uts_case := uts_case self;
     gamma_case := gamma_case self; u_cw := u_cw self;
     p_peak := 40 * u.ksi; t_peak := t_peak; alpha_s := 6.0 / t_peak;
     gama := gama self |}.

(** [C9mm.__init__] *)
Definition C9mm : Cartridge :=
  let self := Cartridge_init in
  let t_peak := 1.5e-4 in
  {| m_bullet := 115 * u.grains; d_chamber := 9.8 * u.mm;
     d_case := 9.03 * u.mm; l_case := 19.15 * u.mm;
     l_case_i := 15.00 * u.mm; l_round := 29.69 * u.mm;
     yield_case := yield_case self; uts_case := uts_case self;
     gamma_case := gamma_case self; u_cw := u_cw self;
     p_peak := 55 * u.ksi; t_peak := t_peak; alpha_s := 6.0 / t_peak;
     gama := 1.15 |}.

(** The derived properties. *)

Definition a_chamber (self : Cartridge) : result R :=
  d2 ← py_pow (d_chamber self) 2; Ok (PI * d2 / 4.0).

Definition a_case (self : Cartridge) : result R :=
  d2 ← py_pow (d_case self) 2; Ok (PI * d2 / 4.0).

Definition a_bullet (self : Cartridge) : result R :=
  d2 ← py_pow (d_chamber self) 2; Ok (PI * d2).

Definition a_cw (self : Cartridge) : R := PI * d_case self * l_case_i self.

Definition v_case (self : Cartridge) : result R :=
  a ← a_case self; Ok (a * l_case_i self).

Definition t_case (self : Cartridge) : R := (d_chamber self - d_case self) / 2.0.

Definition p_yield (self : Cartridge) : result R :=
  py_div (2.0 * yield_case self * t_case self) (d_case self).

Definition p_uts (self : Cartridge) : result R :=
  py_div (2.0 * uts_case self * t_case self) (d_case self).

(** ** numpy arrays

    [np.zeros([4,N])] is a list of rows.  Reads and writes go through stdpp's
    list lookup and insert; numpy raises [IndexError] out of range, which
    the loop of [sim] never reaches (see [for_range_inv]). *)

#[global] Instance R_inhabited : Inhabited R := populate 0.

Abbreviation array2 := (list (list R)).

Definition np_zeros (rows cols : nat) : array2 := replicate rows (replicate cols 0).

(** [X[r,i]] *)
Definition get (X : array2) (r i : nat) : R := (X !!! r) !!! i.

(** [X[r,i] = v] *)
Definition set (X : array2) (r i : nat) (v : R) : array2 :=
  alter (fun row : list R => <[i := v]> row) r X.

(** ** cartridges.py: the integrator *)

Definition Ts : R := 1e-6.
Definition Tf : R := 3.0e-3.
Definition N : nat := Z.to_nat (py_int (Tf / Ts)).

(** [t = np.array(range(0,N))*Ts] *)
Definition t : list R := (fun k : nat => INR k * Ts) <$> seq 0 N.

(** The body of the loop of [sim], at index [i].  Every read of a property
    evaluates it anew, in the order of the source. *)
Definition body (self : Cartridge) (friction : bool) (l_barrel : R)
    (X : array2) (i : nat) : result array2 :=
  let x := get X 0 i in
  let x_d := get X 1 i in
  a ← a_case self;
  let x_dd := get X 2 i * a / m_bullet self * 0.9 in
  let p_combust := p_peak self * sigmoid (t !!! i) (alpha_s self) (t_peak self) in
  let p_combust := if Rgt_dec x l_barrel then 0 else p_combust in
  (* Expanded gas combustion pressure *)
  v ← v_case self;
  v' ← v_case self;
  a' ← a_case self;
  let p_k := p_combust * np_pow (v / (v' + x * a')) (gama self) in
  (* Case wall friction removes force *)
  F_friction ←
    (if negb friction then Ok 0
     else
       p_y ← p_yield self;
       if Rlt_dec p_k p_y then Ok 0
       else p_y ← p_yield self; Ok ((p_k - p_y) * a_cw self * u_cw self));
  a_ch ← a_chamber self;
  let F_case := p_k * a_ch - F_friction in
  let F_case := if Rlt_dec F_case 0 then 0 else F_case in
  let X := set X 0 (i + 1) (x + x_d * Ts) in
  let X := set X 1 (i + 1) (x_d + x_dd * Ts) in
  let X := set X 2 (i + 1) p_k in
  let X := set X 3 (i + 1) F_case in
  Ok X.

(** [for i in idx: body] *)
Fixpoint for_range (self : Cartridge) (friction : bool) (l_barrel : R)
    (idx : list nat) (X : array2) : result array2 :=
  match idx with
  | [] => Ok X
  | i :: idx => X ← body self friction l_barrel X i;
                for_range self friction l_barrel idx X
  end.

(** [if not l_barrel: l_barrel = 18 * u.inch]; [None] is the default
    argument, and the float [0] is falsy as well. *)
Definition barrel_or_default (l_barrel : option R) : R :=
  match l_barrel with
  | None => 18 * u.inch
  | Some l => if Req_dec_T l 0 then 18 * u.inch else l
  end.

(** [Cartridge.sim] *)
Definition sim (self : Cartridge) (friction : bool) (l_barrel : option R)
    : result (list R * array2) :=
  let l_barrel := barrel_or_default l_barrel in
  let X := np_zeros 4 N in
  X ← for_range self friction l_barrel (seq 0 (N - 1)) X;
  Ok (t, X).

(** ** Auxiliary predicates *)

(** An array of [rows] rows of [cols] entries each. *)
Definition shape (rows cols : nat) (X : array2) : Prop :=
  length X = rows /\ forall r : nat, (r < rows)%nat -> length (X !!! r) = cols.

(** The values that [a_chamber], [a_case] and [v_case] return when they
    return. *)
Definition a_chamber_val (self : Cartridge) : R := PI * (d_chamber self) ^ 2 / 4.0.
Definition a_case_val (self : Cartridge) : R := PI * (d_case self) ^ 2 / 4.0.
Definition v_case_val (self : Cartridge) : R := a_case_val self * l_case_i self.

(** The squares of the two diameters are within the range of the floats:
    no [pow] of the bundle overflows. *)
Definition in_range (self : Cartridge) : Prop :=
  (d_case self) ^ 2 <= float_max /\ (d_chamber self) ^ 2 <= float_max.

(** What iteration [i] of the loop establishes between the columns [i] and
    [i + 1] of one array. *)
Definition step_rel (self : Cartridge) (friction : bool) (l_barrel : R)
    (X : array2) (i : nat) : Prop :=
  let x := get X 0 i in
  let x_d := get X 1 i in
  let x_dd := get X 2 i * a_case_val self / m_bullet self * 0.9 in
  let p_combust :=
    if Rgt_dec x l_barrel then 0
    else p_peak self * sigmoid (t !!! i) (alpha_s self) (t_peak self) in
  let p_k :=
    p_combust * np_pow (v_case_val self / (v_case_val self + x * a_case_val self))
                       (gama self) in
  exists F_friction : R,
    (if friction
     then exists p_y : R, p_yield self = Ok p_y /\
            F_friction = if Rlt_dec p_k p_y then 0
                         else (p_k - p_y) * a_cw self * u_cw self
     else F_friction = 0) /\
    get X 0 (i + 1) = x + x_d * Ts /\
    get X 1 (i + 1) = x_d + x_dd * Ts /\
    get X 2 (i + 1) = p_k /\
    get X 3 (i + 1) = (if Rlt_dec (p_k * a_chamber_val self - F_friction) 0 then 0
                       else p_k * a_chamber_val self - F_friction).

(** The invariants of the parameter bundle as the data model lists them.
    The program never checks them: they are the precondition of the
    statements about valid bundles. *)
Record valid_bundle (self : Cartridge) : Prop := {
  valid_m_bullet   : 0 < m_bullet self;
  valid_d_chamber  : 0 < d_chamber self;
  valid_d_case     : 0 < d_case self;
  valid_diameters  : d_case self <= d_chamber self;
  valid_l_case     : 0 < l_case self;
  valid_l_case_i   : 0 < l_case_i self;
  valid_lengths    : l_case_i self <= l_case self;
  valid_l_round    : 0 < l_round self;
  valid_yield_case : 0 < yield_case self;
  valid_uts_case   : yield_case self <= uts_case self;
  valid_gamma_case : 0 < gamma_case self;
  valid_u_cw       : 0 <= u_cw self <= 1;
  valid_p_peak     : 0 < p_peak self;
  valid_t_peak     : 0 < t_peak self;
  valid_alpha_s    : alpha_s self = 6 / t_peak self
}.

(** The state at index [i] of a run on a physically meaningful bundle:
    nothing is negative, the pressure is at most the peak, and the bullet
    is under way from the third sample on. *)
Definition moving (self : Cartridge) (X : array2) (i : nat) : Prop :=
  0 <= get X 0 i /\ 0 <= get X 1 i /\
  0 <= get X 2 i <= p_peak self /\
  (i = 1%nat -> 0 < get X 2 i) /\
  ((2 <= i)%nat -> 0 < get X 1 i) /\
  ((3 <= i)%nat -> 0 < get X 0 i).

(** ** The integrator constants *)

Lemma Tf_over_Ts : Tf / Ts = 3000.
Proof. unfold Tf, Ts. lra. Qed.

Lemma N_val : N = 3000%nat.
Proof.
  unfold N, py_int. rewrite Tf_over_Ts.
  destruct (Rle_dec 0 3000) as [_|H]; [|exfalso; apply H; lra].
  replace (Int_part 3000) with 3000%Z; [reflexivity|].
  apply Int_part_spec. lra.
Qed.

Lemma t_length : length t = N.
Proof. unfold t. by rewrite length_fmap, length_seq. Qed.

Lemma t_lookup (i : nat) : (i < N)%nat -> t !!! i = INR i * Ts.
Proof.
  intros Hi. unfold t.
  apply list_lookup_total_correct.
  rewrite list_lookup_fmap, lookup_seq_lt by done. reflexivity.
Qed.

(** ** Arrays: reads after writes, and shapes *)

Lemma np_zeros_shape (rows cols : nat) : shape rows cols (np_zeros rows cols).
Proof.
  split; [apply length_replicate|].
  intros r Hr. unfold np_zeros.
  rewrite lookup_total_replicate_2 by done. apply length_replicate.
Qed.

Lemma np_zeros_get (rows cols r i : nat) :
  (r < rows)%nat -> (i < cols)%nat -> get (np_zeros rows cols) r i = 0.
Proof.
  intros Hr Hi. unfold get, np_zeros.
  by rewrite !lookup_total_replicate_2.
Qed.

Lemma set_shape (rows cols : nat) (X : array2) (r i : nat) (v : R) :
  shape rows cols X -> shape rows cols (set X r i v).
Proof.
  intros [HX Hrow]. split.
  - unfold set. by rewrite length_alter.
  - intros r' Hr'. unfold set.
    destruct (decide (r = r')) as [->|Hne].
    + rewrite list_lookup_total_alter_eq by lia.
      rewrite length_insert. by apply Hrow.
    + rewrite list_lookup_total_alter_ne by done. by apply Hrow.
Qed.

Lemma get_set_eq (rows cols : nat) (X : array2) (r i : nat) (v : R) :
  shape rows cols X -> (r < rows)%nat -> (i < cols)%nat ->
  get (set X r i v) r i = v.
Proof.
  intros [HX Hrow] Hr Hi. unfold get, set.
  rewrite list_lookup_total_alter_eq by lia.
  apply list_lookup_total_insert_eq. rewrite Hrow; done.
Qed.

Lemma get_set_row (X : array2) (r r' i i' : nat) (v : R) :
  r <> r' -> get (set X r i v) r' i' = get X r' i'.
Proof.
  intros Hne. unfold get, set.
  by rewrite list_lookup_total_alter_ne.
Qed.

Lemma get_set_col (X : array2) (r r' i i' : nat) (v : R) :
  i <> i' -> get (set X r i v) r' i' = get X r' i'.
Proof.
  intros Hne. unfold get, set.
  destruct (decide (r = r')) as [->|Hr].
  - destruct (decide (r' < length X)%nat) as [Hlt|Hge].
    + rewrite list_lookup_total_alter_eq by done.
      by rewrite list_lookup_total_insert_ne.
    + assert (Hid : alter (fun row : list R => <[i:=v]> row) r' X = X).
      { apply list_eq. intros j. destruct (decide (r' = j)) as [<-|Hj].
        - rewrite list_lookup_alter_eq.
          rewrite (lookup_ge_None_2 X r') by lia. done.
        - by rewrite list_lookup_alter_ne. }
      by rewrite Hid.
  - by rewrite list_lookup_total_alter_ne.
Qed.

(** ** The area properties and the range of the floats *)

Lemma float_max_bounds : 1e308 < float_max < 1e309.
Proof.
  unfold float_max.
  set (z := (2 ^ 1024 - 2 ^ 971)%Z). vm_compute in z. subst z.
  split; lra.
Qed.

Lemma py_pow_2 (b : R) :
  py_pow b 2 =
  if Rle_dec (b ^ 2) float_max then Ok (b ^ 2) else Raise OverflowError.
Proof. unfold py_pow. by rewrite Rabs_pos_eq by apply pow2_ge_0. Qed.

Lemma a_case_spec (self : Cartridge) :
  a_case self =
  if Rle_dec (d_case self ^ 2) float_max then Ok (a_case_val self)
  else Raise OverflowError.
Proof.
  unfold a_case. rewrite py_pow_2.
  by destruct (Rle_dec (d_case self ^ 2) float_max).
Qed.

Lemma v_case_spec (self : Cartridge) :
  v_case self =
  if Rle_dec (d_case self ^ 2) float_max then Ok (v_case_val self)
  else Raise OverflowError.
Proof.
  unfold v_case. rewrite a_case_spec.
  by destruct (Rle_dec (d_case self ^ 2) float_max).
Qed.

Lemma a_chamber_spec (self : Cartridge) :
  a_chamber self =
  if Rle_dec (d_chamber self ^ 2) float_max then Ok (a_chamber_val self)
  else Raise OverflowError.
Proof.
  unfold a_chamber. rewrite py_pow_2.
  by destruct (Rle_dec (d_chamber self ^ 2) float_max).
Qed.

Lemma a_bullet_spec (self : Cartridge) :
  a_bullet self =
  if Rle_dec (d_chamber self ^ 2) float_max then Ok (PI * d_chamber self ^ 2)
  else Raise OverflowError.
Proof.
  unfold a_bullet. rewrite py_pow_2.
  by destruct (Rle_dec (d_chamber self ^ 2) float_max).
Qed.

(** Within the range all three properties that [sim] reads return. *)
Lemma in_range_returns (self : Cartridge) :
  in_range self ->
  a_case self = Ok (a_case_val self) /\ v_case self = Ok (v_case_val self) /\
  a_chamber self = Ok (a_chamber_val self).
Proof.
  intros [Hc Hch]. rewrite a_case_spec, v_case_spec, a_chamber_spec.
  destruct (Rle_dec (d_case self ^ 2) float_max); [|contradiction].
  destruct (Rle_dec (d_chamber self ^ 2) float_max); [|contradiction].
  done.
Qed.

(** ** One iteration *)

Ltac read_written n :=
  repeat (rewrite get_set_row by discriminate);
  try (erewrite (get_set_eq 4 n) by (repeat apply set_shape; eassumption || lia));
  try reflexivity.

Lemma body_inv (self : Cartridge) (friction : bool) (l_barrel : R) (n : nat)
    (X X' : array2) (i : nat) :
  shape 4 n X -> (i + 1 < n)%nat ->
  body self friction l_barrel X i = Ok X' ->
  in_range self /\
  shape 4 n X' /\
  (forall r j : nat, j <> (i + 1)%nat -> get X' r j = get X r j) /\
  (forall Y : array2,
      (forall r j : nat, (j <= i + 1)%nat -> get Y r j = get X' r j) ->
      step_rel self friction l_barrel Y i).
Proof.
  intros HX Hi Hb. unfold body in Hb.
  rewrite v_case_spec, a_case_spec, a_chamber_spec in Hb.
  destruct (Rle_dec (d_case self ^ 2) float_max) as [Hc|_]; [|discriminate].
  destruct (Rle_dec (d_chamber self ^ 2) float_max) as [Hch|_].
  2: { exfalso. destruct friction; simpl in Hb; [|discriminate].
       destruct (p_yield self) as [p_y|e]; simpl in Hb; [|discriminate].
       match type of Hb with
       | context [Rlt_dec ?a p_y] => destruct (Rlt_dec a p_y)
       end; discriminate. }
  destruct friction; simpl in Hb.
  - destruct (p_yield self) as [p_y|e] eqn:Hy; simpl in Hb; [|discriminate].
    match type of Hb with context [Rlt_dec ?a p_y] => set (p_k := a) in * end.
    destruct (Rlt_dec p_k p_y) as [Hlt|Hge]; simpl in Hb;
      injection Hb as <-.
    all: split; [done|].
    all: split; [by repeat apply set_shape|].
    all: split; [intros r j Hj; by rewrite !get_set_col by lia|].
    all: intros Y HY; unfold step_rel; cbv zeta.
    all: rewrite !HY by lia.
    all: rewrite !(get_set_col _ _ _ (i + 1)%nat i) by lia.
    all: fold p_k.
    + exists 0. split.
      { exists p_y. split; [done|]. destruct (Rlt_dec p_k p_y); [done|contradiction]. }
      repeat split; read_written n.
    + exists ((p_k - p_y) * a_cw self * u_cw self). split.
      { exists p_y. split; [done|]. destruct (Rlt_dec p_k p_y); [contradiction|done]. }
      repeat split; read_written n.
  - injection Hb as <-.
    split; [done|].
    split; [by repeat apply set_shape|].
    split; [intros r j Hj; by rewrite !get_set_col by lia|].
    intros Y HY; unfold step_rel; cbv zeta.
    rewrite !HY by lia.
    rewrite !(get_set_col _ _ _ (i + 1)%nat i) by lia.
    exists 0. split; [done|].
    repeat split; read_written n.
Qed.

Lemma step_rel_ext (self : Cartridge) (friction : bool) (l_barrel : R)
    (X Y : array2) (i : nat) :
  (forall r j : nat, (j <= i + 1)%nat -> get Y r j = get X r j) ->
  step_rel self friction l_barrel X i -> step_rel self friction l_barrel Y i.
Proof.
  intros HY. unfold step_rel; cbv zeta.
  rewrite !HY by lia. done.
Qed.

(** An iteration fails in two ways only: a [pow] that overflows and the
    division in [p_yield]. *)
Lemma body_total (self : Cartridge) (friction : bool) (l_barrel : R)
    (X : array2) (i : nat) :
  in_range self ->
  friction = false \/ d_case self <> 0 ->
  exists X' : array2, body self friction l_barrel X i = Ok X'.
Proof.
  intros Hr Hok. unfold body.
  destruct (in_range_returns self Hr) as (-> & -> & ->). simpl.
  destruct friction; simpl.
  - destruct Hok as [?|Hd]; [discriminate|].
    unfold p_yield, py_div.
    destruct (Req_dec_T (d_case self) 0) as [?|_]; [contradiction|]. simpl.
    match goal with |- context [Rlt_dec ?a ?b] => destruct (Rlt_dec a b) end;
      simpl; eauto.
  - eauto.
Qed.

Lemma body_raises (self : Cartridge) (l_barrel : R) (X : array2) (i : nat) :
  d_case self = 0 ->
  body self true l_barrel X i = Raise ZeroDivisionError.
Proof.
  intros Hd. unfold body. rewrite v_case_spec, a_case_spec.
  pose proof float_max_bounds as Hmax.
  destruct (Rle_dec (d_case self ^ 2) float_max) as [_|Hn];
    [|exfalso; apply Hn; rewrite Hd; lra].
  unfold p_yield, py_div. simpl.
  destruct (Req_dec_T (d_case self) 0) as [_|?]; [reflexivity|contradiction].
Qed.

Lemma body_overflows (self : Cartridge) (friction : bool) (l_barrel : R)
    (X : array2) (i : nat) :
  ~ in_range self ->
  friction = false \/ d_case self <> 0 ->
  body self friction l_barrel X i = Raise OverflowError.
Proof.
  intros Hr Hok. unfold body.
  rewrite v_case_spec, a_case_spec, a_chamber_spec.
  destruct (Rle_dec (d_case self ^ 2) float_max) as [Hc|_]; [|done].
  destruct (Rle_dec (d_chamber self ^ 2) float_max) as [Hch|_];
    [exfalso; by apply Hr|].
  destruct friction; simpl; [|done].
  destruct Hok as [?|Hd]; [discriminate|].
  unfold p_yield, py_div.
  destruct (Req_dec_T (d_case self) 0) as [?|_]; [contradiction|]. simpl.
  match goal with |- context [Rlt_dec ?a ?b] => destruct (Rlt_dec a b) end;
    done.
Qed.

(** ** The loop *)

Lemma for_range_snoc (self : Cartridge) (friction : bool) (l_barrel : R)
    (idx : list nat) (k : nat) (X : array2) :
  for_range self friction l_barrel (idx ++ [k]) X =
  for_range self friction l_barrel idx X ≫= fun X' => body self friction l_barrel X' k.
Proof.
  revert X. induction idx as [|i idx IH]; intros X; simpl.
  - destruct (body self friction l_barrel X k); reflexivity.
  - destruct (body self friction l_barrel X i) as [X1|e]; simpl; [apply IH|reflexivity].
Qed.

Lemma for_range_inv (self : Cartridge) (friction : bool) (l_barrel : R)
    (n k : nat) (X0 Xk : array2) :
  shape 4 n X0 -> (k < n)%nat ->
  for_range self friction l_barrel (seq 0 k) X0 = Ok Xk ->
  ((0 < k)%nat -> in_range self) /\
  shape 4 n Xk /\
  (forall r j : nat, j = 0%nat \/ (k < j)%nat -> get Xk r j = get X0 r j) /\
  (forall i : nat, (i < k)%nat -> step_rel self friction l_barrel Xk i).
Proof.
  intros HX0. revert Xk. induction k as [|k IH]; intros Xk Hk Hrun.
  - simpl in Hrun. injection Hrun as <-.
    split; [lia|]. split; [done|]. split; [done|]. intros i Hi. lia.
  - rewrite seq_S, for_range_snoc in Hrun. simpl in Hrun.
    destruct (for_range self friction l_barrel (seq 0 k) X0) as [Xm|e] eqn:Hm;
      simpl in Hrun; [|discriminate].
    destruct (IH Xm) as (_ & Hsh & Hfr & Hst); [lia|done|].
    destruct (body_inv self friction l_barrel n Xm Xk k Hsh)
      as (Hr & Hsh' & Hfr' & Hst'); [lia|done|].
    split; [done|]. split; [done|]. split.
    + intros r j Hj. rewrite Hfr' by lia. apply Hfr. lia.
    + intros i Hi. destruct (decide (i = k)) as [->|Hne].
      * apply Hst'. done.
      * apply (step_rel_ext _ _ _ Xm); [|apply Hst; lia].
        intros r j Hj. apply Hfr'. lia.
Qed.

Lemma for_range_total (self : Cartridge) (friction : bool) (l_barrel : R)
    (idx : list nat) (X : array2) :
  in_range self ->
  friction = false \/ d_case self <> 0 ->
  exists X' : array2, for_range self friction l_barrel idx X = Ok X'.
Proof.
  intros Hr Hok. revert X. induction idx as [|i idx IH]; intros X; simpl.
  - eauto.
  - destruct (body_total self friction l_barrel X i Hr Hok) as [X1 ->].
    simpl. apply IH.
Qed.

(** ** Whole runs *)

Lemma sim_total (self : Cartridge) (friction : bool) (l_barrel : option R) :
  in_range self ->
  friction = false \/ d_case self <> 0 ->
  exists X : array2, sim self friction l_barrel = Ok (t, X).
Proof.
  intros Hr Hok. unfold sim.
  destruct (for_range_total self friction (barrel_or_default l_barrel)
              (seq 0 (N - 1)) (np_zeros 4 N) Hr Hok) as [X ->].
  simpl. eauto.
Qed.

Lemma sim_raises (self : Cartridge) (l_barrel : option R) :
  d_case self = 0 ->
  sim self true l_barrel = Raise ZeroDivisionError.
Proof.
  intros Hd. unfold sim. rewrite N_val.
  change (3000 - 1)%nat with (S 2998). rewrite <- cons_seq. simpl.
  by rewrite body_raises.
Qed.

Lemma sim_overflows (self : Cartridge) (friction : bool)
    (l_barrel : option R) :
  ~ in_range self ->
  friction = false \/ d_case self <> 0 ->
  sim self friction l_barrel = Raise OverflowError.
Proof.
  intros Hr Hok. unfold sim. rewrite N_val.
  change (3000 - 1)%nat with (S 2998). rewrite <- cons_seq. simpl.
  by rewrite body_overflows.
Qed.

Lemma sim_inv (self : Cartridge) (friction : bool) (l_barrel : option R)
    (ts : list R) (X : array2) :
  sim self friction l_barrel = Ok (ts, X) ->
  ts = t /\ shape 4 N X /\
  (forall r : nat, (r < 4)%nat -> get X r 0 = 0) /\
  (forall i : nat, (i + 1 < N)%nat ->
     step_rel self friction (barrel_or_default l_barrel) X i).
Proof.
  unfold sim. intros Hsim.
  destruct (for_range self friction (barrel_or_default l_barrel)
              (seq 0 (N - 1)) (np_zeros 4 N)) as [X'|e] eqn:Hrun;
    simpl in Hsim; [|discriminate].
  injection Hsim as <- <-.
  assert (HN : (0 < N)%nat) by (rewrite N_val; lia).
  destruct (for_range_inv self friction (barrel_or_default l_barrel) N (N - 1)
              (np_zeros 4 N) X') as (_ & Hsh & Hfr & Hst);
    [apply np_zeros_shape|lia|done|].
  split; [done|]. split; [done|]. split.
  - intros r Hr. rewrite Hfr by lia. by apply np_zeros_get.
  - intros i Hi. apply Hst. lia.
Qed.

(** A run that returns has evaluated every property it reads. *)
Lemma sim_in_range (self : Cartridge) (friction : bool) (l_barrel : option R)
    (ts : list R) (X : array2) :
  sim self friction l_barrel = Ok (ts, X) -> in_range self.
Proof.
  unfold sim. intros Hsim.
  destruct (for_range self friction (barrel_or_default l_barrel)
              (seq 0 (N - 1)) (np_zeros 4 N)) as [X'|e] eqn:Hrun;
    simpl in Hsim; [|discriminate].
  pose proof N_val as HN.
  destruct (for_range_inv self friction (barrel_or_default l_barrel) N (N - 1)
              (np_zeros 4 N) X') as (Hr & _);
    [apply np_zeros_shape|lia|done|].
  apply Hr. lia.
Qed.

Lemma sim_reads_properties (self : Cartridge) (friction : bool)
    (l_barrel : option R) (ts : list R) (X : array2) :
  sim self friction l_barrel = Ok (ts, X) ->
  a_case self = Ok (a_case_val self) /\ v_case self = Ok (v_case_val self) /\
  a_chamber self = Ok (a_chamber_val self).
Proof. intros Hsim. eapply in_range_returns, sim_in_range, Hsim. Qed.

(** ** The sigmoid curve *)

Lemma sigmoid_denominator_pos (x alpha x_0 : R) :
  1 < 1 + py_exp (- alpha * (x - x_0)).
Proof. unfold py_exp. pose proof (exp_pos (- alpha * (x - x_0))). lra. Qed.

Lemma sigmoid_bounds (x alpha x_0 : R) : 0 < sigmoid x alpha x_0 < 1.
Proof.
  unfold sigmoid. pose proof (sigmoid_denominator_pos x alpha x_0) as Hd.
  split.
  - apply Rdiv_lt_0_compat; lra.
  - apply (Rmult_lt_reg_r (1 + py_exp (- alpha * (x - x_0)))); [lra|].
    unfold Rdiv. rewrite Rmult_assoc, Rinv_l by lra. lra.
Qed.

Lemma sigmoid_midpoint (alpha x_0 : R) : sigmoid x_0 alpha x_0 = 0.5.
Proof.
  unfold sigmoid, py_exp.
  replace (- alpha * (x_0 - x_0)) with 0 by ring.
  rewrite exp_0. lra.
Qed.

Lemma sigmoid_increasing (alpha x_0 x y : R) :
  0 < alpha -> x < y -> sigmoid x alpha x_0 < sigmoid y alpha x_0.
Proof.
  intros Ha Hxy. unfold sigmoid.
  pose proof (sigmoid_denominator_pos x alpha x_0) as Hx.
  pose proof (sigmoid_denominator_pos y alpha x_0) as Hy.
  unfold Rdiv. rewrite !Rmult_1_l.
  apply Rinv_lt_contravar.
  - apply Rmult_lt_0_compat; lra.
  - apply Rplus_lt_compat_l. unfold py_exp. apply exp_increasing. nra.
Qed.

(** C7: [sigmoid] is [1 / (1 + exp (- alpha * (x - x_0)))] on all reals; it
    is exactly one half at the midpoint, for a non-zero steepness among
    others; for a positive steepness it is strictly increasing in [x]; and
    every value lies strictly between 0 and 1. *)
Theorem sigmoid_contract :
  (forall x alpha x_0 : R,
      sigmoid x alpha x_0 = 1 / (1 + exp (- alpha * (x - x_0)))) /\
  (forall alpha x_0 : R, alpha <> 0 -> sigmoid x_0 alpha x_0 = 0.5) /\
  (forall alpha x_0 x y : R,
      alpha > 0 -> x < y -> sigmoid x alpha x_0 < sigmoid y alpha x_0) /\
  (forall x alpha x_0 : R, 0 < sigmoid x alpha x_0 < 1).
Proof.
  split; [reflexivity|].
  split; [intros alpha x_0 _; apply sigmoid_midpoint|].
  split; [intros alpha x_0 x y Ha Hxy; by apply sigmoid_increasing|].
  apply sigmoid_bounds.
Qed.

Lemma sigmoid_contract_witness :
  40000 <> 0 /\ sigmoid 1.5e-4 40000 1.5e-4 = 0.5 /\
  40000 > 0 /\ 0 < 1e-6 /\ sigmoid 0 40000 1.5e-4 < sigmoid 1e-6 40000 1.5e-4.
Proof.
  destruct sigmoid_contract as (_ & Hmid & Hinc & _).
  assert (H1 : 40000 <> 0) by lra.
  assert (H2 : 40000 > 0) by lra.
  assert (H3 : 0 < 1e-6) by lra.
  split; [exact H1|]. split; [exact (Hmid 40000 1.5e-4 H1)|].
  split; [exact H2|]. split; [exact H3|].
  exact (Hinc 40000 1.5e-4 0 1e-6 H2 H3).
Defined.

(** ** The samples of a run *)

(** C1: in a run of [sim], for every [i <= N - 2] the pressure sample at
    [i + 1] is [p_peak * sigmoid(t_i, alpha_s, t_peak)] times
    [(v_case / (v_case + x_i * a_case))] to the power [gama], with the
    position [x_i] and the time [t_i = i * Ts] of index [i] and the values
    [v] and [a] that [v_case] and [a_case] return; except that it is 0
    when [x_i] exceeds the barrel length in force. *)
Theorem pressure_sample (self : Cartridge) (friction : bool)
    (l_barrel : option R) (ts : list R) (X : array2) (i : nat) :
  sim self friction l_barrel = Ok (ts, X) ->
  (i <= N - 2)%nat ->
  let x_i := get X 0 i in
  let t_i := ts !!! i in
  exists v a : R,
    v_case self = Ok v /\ a_case self = Ok a /\
    t_i = INR i * Ts /\
    (~ x_i > barrel_or_default l_barrel ->
     get X 2 (i + 1) =
       p_peak self * sigmoid t_i (alpha_s self) (t_peak self)
       * np_pow (v / (v + x_i * a)) (gama self)) /\
    (x_i > barrel_or_default l_barrel -> get X 2 (i + 1) = 0).
Proof.
  intros Hsim Hi x_i t_i.
  destruct (sim_reads_properties _ _ _ _ _ Hsim) as (Ha & Hv & _).
  exists (v_case_val self), (a_case_val self).
  split; [exact Hv|]. split; [exact Ha|].
  destruct (sim_inv _ _ _ _ _ Hsim) as (-> & _ & _ & Hst).
  assert (HN : N = 3000%nat) by apply N_val.
  destruct (Hst i) as (F & _ & _ & _ & Hp & _); [lia|].
  subst x_i t_i. split; [apply t_lookup; lia|].
  rewrite Hp.
  destruct (Rgt_dec (get X 0 i) (barrel_or_default l_barrel)) as [Hgt|Hle].
  - split; [intros Hn; contradiction|intros _; ring].
  - split; [intros _; reflexivity|intros Hgt; contradiction].
Qed.

(** C3: in a run of [sim], for every [i <= N - 2],
    [x_(i+1) = x_i + v_i * Ts] and [v_(i+1) = v_i + a * Ts] where
    [a = p_i * a_case / m_bullet * 0.9] uses the pressure sample of index
    [i] and the area that [a_case] returns. *)
Theorem euler_update (self : Cartridge) (friction : bool)
    (l_barrel : option R) (ts : list R) (X : array2) (i : nat) :
  sim self friction l_barrel = Ok (ts, X) ->
  (i <= N - 2)%nat ->
  exists area : R,
    a_case self = Ok area /\
    let a := get X 2 i * area / m_bullet self * 0.9 in
    get X 0 (i + 1) = get X 0 i + get X 1 i * Ts /\
    get X 1 (i + 1) = get X 1 i + a * Ts.
Proof.
  intros Hsim Hi.
  destruct (sim_reads_properties _ _ _ _ _ Hsim) as (Ha & _ & _).
  exists (a_case_val self). split; [exact Ha|]. intros a.
  destruct (sim_inv _ _ _ _ _ Hsim) as (_ & _ & _ & Hst).
  assert (HN : N = 3000%nat) by apply N_val.
  destruct (Hst i) as (F & _ & Hx & Hv & _); [lia|]. done.
Qed.

(** C4: whatever the bundle, the barrel length and the friction flag, every
    force sample of the trajectory that [sim] returns is non-negative. *)
Theorem force_nonneg (self : Cartridge) (friction : bool)
    (l_barrel : option R) (ts : list R) (X : array2) (j : nat) :
  sim self friction l_barrel = Ok (ts, X) ->
  (j < N)%nat ->
  0 <= get X 3 j.
Proof.
  intros Hsim Hj.
  destruct (sim_inv _ _ _ _ _ Hsim) as (_ & _ & H0 & Hst).
  destruct j as [|i].
  - rewrite H0 by lia. lra.
  - destruct (Hst i) as (F & _ & _ & _ & _ & HF); [lia|].
    replace (S i) with (i + 1)%nat by lia. rewrite HF.
    match goal with |- context [Rlt_dec ?a 0] => destruct (Rlt_dec a 0) end; lra.
Qed.

Lemma a_chamber_nonneg (self : Cartridge) : 0 <= a_chamber_val self.
Proof.
  unfold a_chamber_val. pose proof PI_RGT_0. pose proof (pow2_ge_0 (d_chamber self)).
  apply Rmult_le_pos; [|lra]. apply Rmult_le_pos; lra.
Qed.

(** C5: with [friction = False] the friction force subtracted at every step
    is 0, and at every index [j] with [p_j >= 0] the force sample is
    exactly [p_j * a_chamber], with the area that [a_chamber] returns. *)
Theorem frictionless_force (self : Cartridge) (l_barrel : option R)
    (ts : list R) (X : array2) :
  sim self false l_barrel = Ok (ts, X) ->
  exists a_ch : R,
    a_chamber self = Ok a_ch /\
    (forall i : nat, (i + 1 < N)%nat ->
       let F_friction := 0 in
       let F_case := get X 2 (i + 1) * a_ch - F_friction in
       get X 3 (i + 1) = if Rlt_dec F_case 0 then 0 else F_case) /\
    (forall j : nat, (j < N)%nat -> get X 2 j >= 0 ->
       get X 3 j = get X 2 j * a_ch).
Proof.
  intros Hsim.
  destruct (sim_reads_properties _ _ _ _ _ Hsim) as (_ & _ & Hach).
  exists (a_chamber_val self). split; [exact Hach|].
  destruct (sim_inv _ _ _ _ _ Hsim) as (_ & _ & H0 & Hst).
  assert (Hstep : forall i : nat, (i + 1 < N)%nat ->
     get X 3 (i + 1) =
       if Rlt_dec (get X 2 (i + 1) * a_chamber_val self - 0) 0 then 0
       else get X 2 (i + 1) * a_chamber_val self - 0).
  { intros i Hi. destruct (Hst i Hi) as (F & -> & _ & _ & Hp & HF).
    rewrite HF, Hp. reflexivity. }
  split; [exact Hstep|].
  intros j Hj Hp. destruct j as [|i].
  - rewrite !H0 by lia. ring.
  - replace (S i) with (i + 1)%nat in * by lia.
    rewrite Hstep by lia.
    pose proof (a_chamber_nonneg self) as Ha.
    destruct (Rlt_dec (get X 2 (i + 1) * a_chamber_val self - 0) 0)
      as [Hneg|_]; [|ring].
    exfalso.
    assert (0 <= get X 2 (i + 1) * a_chamber_val self)
      by (apply Rmult_le_pos; lra).
    lra.
Qed.

(** C6: at every step the friction force is 0 when [friction] is off or
    when the expanded pressure [p_k] (the sample written at [i + 1]) is
    below [p_yield = 2 * yield_case * t_case / d_case] with
    [t_case = (d_chamber - d_case) / 2]; otherwise it is
    [(p_k - p_yield) * a_cw * u_cw]; and the force sample is
    [p_k * a_chamber], with the area that [a_chamber] returns, minus this
    friction force, clamped at 0. *)
Theorem friction_force (self : Cartridge) (friction : bool)
    (l_barrel : option R) (ts : list R) (X : array2) (i : nat) :
  sim self friction l_barrel = Ok (ts, X) ->
  (i + 1 < N)%nat ->
  let p_k := get X 2 (i + 1) in
  exists a_ch F_friction : R,
    a_chamber self = Ok a_ch /\
    (friction = false -> F_friction = 0) /\
    (friction = true ->
       exists p_y : R,
         p_yield self = Ok p_y /\
         p_y = 2 * yield_case self * ((d_chamber self - d_case self) / 2)
               / d_case self /\
         (p_k < p_y -> F_friction = 0) /\
         (~ p_k < p_y ->
            F_friction = (p_k - p_y) * (PI * d_case self * l_case_i self)
                         * u_cw self)) /\
    get X 3 (i + 1) =
      (if Rlt_dec (p_k * a_ch - F_friction) 0 then 0
       else p_k * a_ch - F_friction).
Proof.
  intros Hsim Hi p_k.
  destruct (sim_reads_properties _ _ _ _ _ Hsim) as (_ & _ & Hach).
  destruct (sim_inv _ _ _ _ _ Hsim) as (_ & _ & _ & Hst).
  destruct (Hst i Hi) as (F & Hfr & _ & _ & Hp & HF).
  rewrite <- Hp in Hfr, HF. fold p_k in Hfr, HF.
  exists (a_chamber_val self), F. split; [exact Hach|].
  split; [|split; [|exact HF]].
  - intros ->. exact Hfr.
  - intros ->. destruct Hfr as (p_y & Hy & HFf).
    exists p_y. split; [exact Hy|]. split.
    + unfold p_yield, py_div in Hy.
      destruct (Req_dec_T (d_case self) 0); [discriminate|].
      injection Hy as <-. unfold t_case. lra.
    + fold (a_cw self).
      destruct (Rlt_dec p_k p_y); split; intros; try contradiction; done.
Qed.

(** ** Runs on physically meaningful bundles *)

Lemma np_pow_unit_interval (r g : R) :
  0 < r <= 1 -> 0 <= g -> 0 < np_pow r g <= 1.
Proof.
  intros Hr Hg. unfold np_pow. split.
  - unfold Rpower. apply exp_pos.
  - apply Rle_trans with (Rpower 1 g); [by apply Rle_Rpower_l|].
    unfold Rpower. rewrite ln_1, Rmult_0_r, exp_0. lra.
Qed.

Section Physical.
Variables (self : Cartridge) (friction : bool) (l_barrel : R).
Variables (n : nat) (X : array2).

Hypothesis m_bullet_pos : 0 < m_bullet self.
Hypothesis d_case_pos : 0 < d_case self.
Hypothesis l_case_i_pos : 0 < l_case_i self.
Hypothesis p_peak_pos : 0 < p_peak self.
Hypothesis gama_nonneg : 0 <= gama self.
Hypothesis l_barrel_nonneg : 0 <= l_barrel.

Hypothesis X_initial : forall r : nat, (r < 4)%nat -> get X r 0 = 0.
Hypothesis X_steps :
  forall i : nat, (i + 1 < n)%nat -> step_rel self friction l_barrel X i.

Lemma a_case_pos : 0 < a_case_val self.
Proof.
  unfold a_case_val. pose proof PI_RGT_0.
  assert (0 < d_case self ^ 2) by (apply pow_lt; done).
  apply Rdiv_lt_0_compat; [|lra]. apply Rmult_lt_0_compat; lra.
Qed.

Lemma v_case_pos : 0 < v_case_val self.
Proof. unfold v_case_val. apply Rmult_lt_0_compat; [apply a_case_pos|done]. Qed.

Lemma expansion_ratio (x : R) :
  0 <= x -> 0 < v_case_val self / (v_case_val self + x * a_case_val self) <= 1.
Proof.
  intros Hx. pose proof a_case_pos as Ha. pose proof v_case_pos as Hv.
  assert (Hxa : 0 <= x * a_case_val self) by (apply Rmult_le_pos; lra).
  split.
  - apply Rdiv_lt_0_compat; lra.
  - apply (Rmult_le_reg_r (v_case_val self + x * a_case_val self)); [lra|].
    unfold Rdiv. rewrite Rmult_assoc, Rinv_l by lra. lra.
Qed.

(** The expanded pressure stays between 0 and the peak. *)
Lemma p_k_bounds (ti x : R) :
  0 <= x ->
  let p_combust :=
    if Rgt_dec x l_barrel then 0
    else p_peak self * sigmoid ti (alpha_s self) (t_peak self) in
  let p_k := p_combust * np_pow (v_case_val self / (v_case_val self + x * a_case_val self))
                                (gama self) in
  0 <= p_k <= p_peak self /\ (x <= l_barrel -> 0 < p_k).
Proof.
  intros Hx p_combust p_k.
  pose proof (np_pow_unit_interval _ (gama self) (expansion_ratio x Hx) gama_nonneg)
    as Hpow.
  pose proof (sigmoid_bounds ti (alpha_s self) (t_peak self)) as Hs.
  assert (Hc : 0 <= p_combust <= p_peak self /\ (x <= l_barrel -> 0 < p_combust)).
  { subst p_combust. destruct (Rgt_dec x l_barrel) as [Hgt|Hle].
    - split; [lra|]. intros ?. lra.
    - split; [nra|]. intros _. apply Rmult_lt_0_compat; lra. }
  destruct Hc as [Hc Hc']. subst p_k. split; [nra|].
  intros Hle. apply Rmult_lt_0_compat; [by apply Hc'|lra].
Qed.

Lemma moving_all (i : nat) : (i < n)%nat -> moving self X i.
Proof.
  induction i as [|i IH]; intros Hi.
  - unfold moving. rewrite !X_initial by lia. repeat split; try lra; lia.
  - destruct IH as (Hx & Hv & [Hp Hp'] & H1 & H2 & H3); [lia|].
    destruct (X_steps i) as (F & _ & Ex & Ev & Ep & _); [lia|].
    replace (S i) with (i + 1)%nat by lia.
    destruct (p_k_bounds (t !!! i) (get X 0 i) Hx) as [Hk Hk'].
    cbv zeta in Ep, Hk, Hk'. rewrite <- Ep in Hk, Hk'.
    pose proof a_case_pos as Ha.
    assert (HTs : 0 < Ts) by (unfold Ts; lra).
    assert (Hacc : 0 <= get X 2 i * a_case_val self / m_bullet self * 0.9 * Ts).
    { apply Rmult_le_pos; [|lra]. apply Rmult_le_pos; [|lra].
      apply Rmult_le_pos; [apply Rmult_le_pos; lra|].
      apply Rlt_le, Rinv_0_lt_compat; done. }
    assert (HvTs : 0 <= get X 1 i * Ts) by (apply Rmult_le_pos; lra).
    unfold moving. rewrite Ex, Ev.
    split; [lra|]. split; [lra|]. split; [exact Hk|].
    split; [|split].
    + intros Hi1. assert (i = 0%nat) as -> by lia.
      apply Hk'. rewrite X_initial by lia. done.
    + intros Hi2. destruct (decide (i = 1%nat)) as [Hi1|Hi1].
      * assert (0 < get X 2 i * a_case_val self / m_bullet self * 0.9 * Ts); [|lra].
        apply Rmult_lt_0_compat; [|lra]. apply Rmult_lt_0_compat; [|lra].
        apply Rmult_lt_0_compat; [apply Rmult_lt_0_compat; [by apply H1|lra]|].
        apply Rinv_0_lt_compat; done.
      * assert (0 < get X 1 i) by (apply H2; lia). lra.
    + intros Hi3. assert (0 < get X 1 i) by (apply H2; lia).
      assert (0 < get X 1 i * Ts) by (apply Rmult_lt_0_compat; lra). lra.
Qed.
End Physical.

(** ** The presets *)

Lemma C9mm_valid : valid_bundle C9mm.
Proof.
  split; unfold C9mm, Cartridge_init, u.grains, u.mm, u.ksi; simpl; lra.
Qed.

Lemma C9mm_in_range : in_range C9mm.
Proof.
  pose proof float_max_bounds. split; simpl; unfold u.mm; lra.
Qed.

Lemma C9mm_d_case : d_case C9mm <> 0.
Proof. pose proof (valid_d_case _ C9mm_valid). lra. Qed.

Lemma Cartridge_init_in_range : in_range Cartridge_init.
Proof. pose proof float_max_bounds. split; simpl; lra. Qed.

Lemma barrel_or_default_zero : barrel_or_default (Some 0) = 0.4572.
Proof.
  unfold barrel_or_default, u.inch.
  destruct (Req_dec_T 0 0) as [_|Hne]; [lra|contradiction].
Qed.

Lemma barrel_or_default_None : barrel_or_default None = 0.4572.
Proof. unfold barrel_or_default, u.inch. lra. Qed.

Lemma barrel_or_default_nonzero (l : R) : l <> 0 -> barrel_or_default (Some l) = l.
Proof.
  intros Hl. unfold barrel_or_default.
  destruct (Req_dec_T l 0) as [?|_]; [contradiction|reflexivity].
Qed.

(** ** Shape of the output *)

(** C2, as stated, fails: the 9 mm preset with a chamber diameter of
    [1e200] satisfies every invariant of the bundle, yet [sim] returns no
    trajectory on it: squaring the diameter in [a_chamber] raises
    [OverflowError]. *)
Lemma wide_chamber_overflows :
  let wide :=
    mkCartridge (m_bullet C9mm) 1e200 (d_case C9mm) (l_case C9mm)
      (l_case_i C9mm) (l_round C9mm) (yield_case C9mm) (uts_case C9mm)
      (gamma_case C9mm) (u_cw C9mm) (p_peak C9mm) (t_peak C9mm)
      (alpha_s C9mm) (gama C9mm) in
  valid_bundle wide /\
  a_chamber wide = Raise OverflowError /\
  sim wide false None = Raise OverflowError /\
  sim wide true None = Raise OverflowError /\
  ~ (exists (ts : list R) (X : array2), sim wide false None = Ok (ts, X)).
Proof.
  intros wide. pose proof float_max_bounds as Hmax.
  assert (Hv : valid_bundle wide).
  { split; unfold wide, C9mm, Cartridge_init, u.grains, u.mm, u.ksi; simpl;
      lra. }
  assert (Hn : ~ in_range wide).
  { intros [_ Hch]. change (1e200 ^ 2 <= float_max) in Hch.
    clear - Hch Hmax. lra. }
  assert (Hd : d_case wide <> 0) by exact C9mm_d_case.
  assert (Hoff : sim wide false None = Raise OverflowError)
    by (apply sim_overflows; [exact Hn|by left]).
  split; [exact Hv|]. split.
  { rewrite a_chamber_spec.
    destruct (Rle_dec (d_chamber wide ^ 2) float_max) as [Hle|_]; [|done].
    exfalso. change (1e200 ^ 2 <= float_max) in Hle. clear - Hle Hmax. lra. }
  split; [exact Hoff|].
  split; [apply sim_overflows; [exact Hn|by right]|].
  intros (ts & X & HX). rewrite Hoff in HX. discriminate.
Qed.

(** C2, amended: on every valid bundle whose squared diameters are within
    the range of the floats [sim] returns; the trajectory has exactly
    [N = 3000] samples, the times start at 0 and are spaced by
    [Ts = 1e-6], and position, velocity, pressure and force are all 0 at
    index 0. *)
Theorem sim_trajectory (self : Cartridge) (friction : bool)
    (l_barrel : option R) :
  valid_bundle self ->
  in_range self ->
  exists (ts : list R) (X : array2),
    sim self friction l_barrel = Ok (ts, X) /\
    N = 3000%nat /\ length ts = 3000%nat /\ shape 4 3000 X /\
    ts !!! 0%nat = 0 /\
    (forall k : nat, (k + 1 < 3000)%nat -> ts !!! (k + 1)%nat - ts !!! k = 1e-6) /\
    get X 0 0 = 0 /\ get X 1 0 = 0 /\ get X 2 0 = 0 /\ get X 3 0 = 0.
Proof.
  intros Hvalid Hr.
  destruct (sim_total self friction l_barrel Hr) as [X HX].
  { right. pose proof (valid_d_case self Hvalid). lra. }
  exists t, X. split; [exact HX|].
  destruct (sim_inv _ _ _ _ _ HX) as (_ & Hsh & H0 & _).
  pose proof N_val as HN.
  split; [exact HN|]. split; [by rewrite t_length|].
  split; [by rewrite <- HN|].
  split; [rewrite t_lookup by lia; simpl; ring|].
  split.
  - intros k Hk. rewrite !t_lookup by lia.
    rewrite Nat.add_1_r, S_INR. unfold Ts. lra.
  - repeat split; apply H0; lia.
Qed.

Lemma sim_trajectory_witness :
  valid_bundle C9mm /\ in_range C9mm /\
  exists (ts : list R) (X : array2),
    sim C9mm true None = Ok (ts, X) /\
    N = 3000%nat /\ length ts = 3000%nat /\ shape 4 3000 X /\
    ts !!! 0%nat = 0 /\
    (forall k : nat, (k + 1 < 3000)%nat -> ts !!! (k + 1)%nat - ts !!! k = 1e-6) /\
    get X 0 0 = 0 /\ get X 1 0 = 0 /\ get X 2 0 = 0 /\ get X 3 0 = 0.
Proof.
  split; [exact C9mm_valid|]. split; [exact C9mm_in_range|].
  exact (sim_trajectory C9mm true None C9mm_valid C9mm_in_range).
Defined.

(** ** Witnesses for the statements about samples *)

Lemma pressure_sample_witness :
  exists X : array2,
    sim C9mm false None = Ok (t, X) /\ (0 <= N - 2)%nat /\
    exists v a : R,
      v_case C9mm = Ok v /\ a_case C9mm = Ok a /\
      t !!! 0%nat = INR 0 * Ts /\
      (~ get X 0 0 > barrel_or_default None ->
       get X 2 (0 + 1) =
         p_peak C9mm * sigmoid (t !!! 0%nat) (alpha_s C9mm) (t_peak C9mm)
         * np_pow (v / (v + get X 0 0 * a)) (gama C9mm)) /\
      (get X 0 0 > barrel_or_default None -> get X 2 (0 + 1) = 0).
Proof.
  destruct (sim_total C9mm false None C9mm_in_range (or_introl eq_refl)) as [X HX].
  exists X. split; [exact HX|]. split; [apply Nat.le_0_l|].
  exact (pressure_sample C9mm false None t X 0 HX (Nat.le_0_l _)).
Defined.

Lemma euler_update_witness :
  exists X : array2,
    sim C9mm false None = Ok (t, X) /\ (0 <= N - 2)%nat /\
    exists area : R,
      a_case C9mm = Ok area /\
      get X 0 (0 + 1) = get X 0 0 + get X 1 0 * Ts /\
      get X 1 (0 + 1) =
        get X 1 0 + get X 2 0 * area / m_bullet C9mm * 0.9 * Ts.
Proof.
  destruct (sim_total C9mm false None C9mm_in_range (or_introl eq_refl)) as [X HX].
  exists X. split; [exact HX|]. split; [apply Nat.le_0_l|].
  exact (euler_update C9mm false None t X 0 HX (Nat.le_0_l _)).
Defined.

Lemma one_lt_N : (1 < N)%nat.
Proof. rewrite N_val. lia. Qed.

Lemma force_nonneg_witness :
  exists X : array2,
    sim C9mm false None = Ok (t, X) /\ (1 < N)%nat /\ 0 <= get X 3 1.
Proof.
  destruct (sim_total C9mm false None C9mm_in_range (or_introl eq_refl)) as [X HX].
  exists X. split; [exact HX|]. split; [exact one_lt_N|].
  exact (force_nonneg C9mm false None t X 1 HX one_lt_N).
Defined.

Lemma frictionless_force_witness :
  exists X : array2,
    sim C9mm false None = Ok (t, X) /\
    exists a_ch : R,
      a_chamber C9mm = Ok a_ch /\
      (forall i : nat, (i + 1 < N)%nat ->
         get X 3 (i + 1) =
           if Rlt_dec (get X 2 (i + 1) * a_ch - 0) 0 then 0
           else get X 2 (i + 1) * a_ch - 0) /\
      (forall j : nat, (j < N)%nat -> get X 2 j >= 0 ->
         get X 3 j = get X 2 j * a_ch).
Proof.
  destruct (sim_total C9mm false None C9mm_in_range (or_introl eq_refl)) as [X HX].
  exists X. split; [exact HX|].
  exact (frictionless_force C9mm None t X HX).
Defined.

Lemma friction_force_witness :
  exists X : array2,
    sim C9mm true None = Ok (t, X) /\ (0 + 1 < N)%nat /\
    exists a_ch F_friction : R,
      a_chamber C9mm = Ok a_ch /\
      (true = false -> F_friction = 0) /\
      (true = true ->
         exists p_y : R,
           p_yield C9mm = Ok p_y /\
           p_y = 2 * yield_case C9mm * ((d_chamber C9mm - d_case C9mm) / 2)
                 / d_case C9mm /\
           (get X 2 (0 + 1) < p_y -> F_friction = 0) /\
           (~ get X 2 (0 + 1) < p_y ->
              F_friction = (get X 2 (0 + 1) - p_y)
                           * (PI * d_case C9mm * l_case_i C9mm) * u_cw C9mm)) /\
      get X 3 (0 + 1) =
        (if Rlt_dec (get X 2 (0 + 1) * a_ch - F_friction) 0 then 0
         else get X 2 (0 + 1) * a_ch - F_friction).
Proof.
  destruct (sim_total C9mm true None C9mm_in_range (or_intror C9mm_d_case)) as [X HX].
  exists X. split; [exact HX|]. split; [exact one_lt_N|].
  exact (friction_force C9mm true None t X 0 HX one_lt_N).
Defined.

(** ** Unset fields *)

(** C8, as stated, fails: the base bundle has [m_bullet = -1], yet [sim]
    raises nothing on it and returns the whole trajectory. *)
Lemma unset_mass_not_rejected :
  m_bullet Cartridge_init = -1 /\
  (exists X : array2,
      sim Cartridge_init false None = Ok (t, X) /\
      length t = 3000%nat /\ shape 4 3000 X) /\
  ~ (exists e : exn, sim Cartridge_init false None = Raise e).
Proof.
  split; [reflexivity|].
  destruct (sim_total Cartridge_init false None Cartridge_init_in_range
              (or_introl eq_refl)) as [X HX].
  split.
  - exists X. split; [exact HX|].
    destruct (sim_inv _ _ _ _ _ HX) as (_ & Hsh & _).
    rewrite t_length. rewrite N_val in *. done.
  - intros [e He]. rewrite HX in He. discriminate.
Qed.

(** C8, amended: [sim] validates nothing and raises no configuration
    error.  On a bundle with [m_bullet = -1] whose squared diameters are
    within the range of the floats, and with friction off or [d_case] not
    0, it returns a complete trajectory of 3000 samples, the velocity
    update dividing by the mass [-1] as it stands. *)
Theorem unset_mass_runs (self : Cartridge) (friction : bool)
    (l_barrel : option R) :
  m_bullet self = -1 ->
  in_range self ->
  friction = false \/ d_case self <> 0 ->
  exists (X : array2) (area : R),
    sim self friction l_barrel = Ok (t, X) /\
    a_case self = Ok area /\
    length t = 3000%nat /\ shape 4 3000 X /\
    forall i : nat, (i <= N - 2)%nat ->
      get X 1 (i + 1) =
        get X 1 i + get X 2 i * area / (-1) * 0.9 * Ts.
Proof.
  intros Hm Hr Hok.
  destruct (sim_total self friction l_barrel Hr Hok) as [X HX].
  destruct (in_range_returns self Hr) as (Ha & _ & _).
  exists X, (a_case_val self). split; [exact HX|]. split; [exact Ha|].
  destruct (sim_inv _ _ _ _ _ HX) as (_ & Hsh & _ & Hst).
  pose proof N_val as HN.
  split; [by rewrite t_length|]. split; [by rewrite <- HN|].
  intros i Hi. destruct (Hst i) as (F & _ & _ & Hv & _); [lia|].
  rewrite Hv, Hm. reflexivity.
Qed.

Lemma unset_mass_runs_witness :
  m_bullet Cartridge_init = -1 /\ in_range Cartridge_init /\
  (true = false \/ d_case Cartridge_init <> 0) /\
  exists (X : array2) (area : R),
    sim Cartridge_init true None = Ok (t, X) /\
    a_case Cartridge_init = Ok area /\
    length t = 3000%nat /\ shape 4 3000 X /\
    forall i : nat, (i <= N - 2)%nat ->
      get X 1 (i + 1) =
        get X 1 i + get X 2 i * area / (-1) * 0.9 * Ts.
Proof.
  assert (Hd : true = false \/ d_case Cartridge_init <> 0).
  { right. simpl. lra. }
  split; [reflexivity|]. split; [exact Cartridge_init_in_range|].
  split; [exact Hd|].
  exact (unset_mass_runs Cartridge_init true None eq_refl
           Cartridge_init_in_range Hd).
Defined.

(** ** The 9 mm Luger scenario *)

(** C9: the 9x19 mm preset carries the listed values, and [sim] on it with
    [l_barrel = 0.4572] and friction on returns a trajectory of 3000
    samples whose last pressure is not negative, whose last position is
    positive and none of whose pressures exceeds [p_peak]. *)
Theorem C9mm_scenario :
  (m_bullet C9mm = 115 * 6.479891e-5 /\ d_chamber C9mm = 9.8 * 0.001 /\
   d_case C9mm = 9.03 * 0.001 /\ l_case_i C9mm = 15.00 * 0.001 /\
   p_peak C9mm = 55 * 6.89475908677537e6 /\ t_peak C9mm = 1.5e-4 /\
   gama C9mm = 1.15) /\
  exists (ts : list R) (X : array2),
    sim C9mm true (Some 0.4572) = Ok (ts, X) /\
    length ts = 3000%nat /\ shape 4 3000 X /\
    get X 2 2999 >= 0 /\
    get X 0 2999 > 0 /\
    forall j : nat, (j < 3000)%nat -> get X 2 j <= p_peak C9mm.
Proof.
  split; [repeat split|].
  destruct (sim_total C9mm true (Some 0.4572) C9mm_in_range (or_intror C9mm_d_case)) as [X HX].
  exists t, X. split; [exact HX|].
  destruct (sim_inv _ _ _ _ _ HX) as (_ & Hsh & H0 & Hst).
  pose proof N_val as HN.
  rewrite barrel_or_default_nonzero in Hst by lra.
  pose proof C9mm_valid as [].
  assert (Hmv : forall i : nat, (i < N)%nat -> moving C9mm X i).
  { intros i Hi. apply (moving_all C9mm true 0.4572 N); try done; try lra.
    simpl. lra. }
  split; [by rewrite t_length|]. split; [by rewrite <- HN|].
  destruct (Hmv 2999%nat) as (_ & _ & [Hp _] & _ & _ & Hx); [lia|].
  split; [lra|]. split; [apply Hx; lia|].
  intros j Hj. destruct (Hmv j) as (_ & _ & [_ Hp'] & _); [lia|]. done.
Qed.

(** ** The default barrel *)

(** C10: a barrel length of 0, like the default [None], is replaced by
    [18 * inch = 0.4572] before the loop: the run is the run with the
    default barrel, and its pressure cutoff sits at 0.4572. *)
Theorem zero_barrel_is_default (self : Cartridge) (friction : bool) :
  barrel_or_default (Some 0) = 18 * u.inch /\
  18 * u.inch = 0.4572 /\
  sim self friction (Some 0) = sim self friction None /\
  sim self friction (Some 0) = sim self friction (Some 0.4572) /\
  forall (ts : list R) (X : array2) (i : nat),
    sim self friction (Some 0) = Ok (ts, X) ->
    (i <= N - 2)%nat ->
    exists v a : R,
      v_case self = Ok v /\ a_case self = Ok a /\
      (get X 0 i > 0.4572 -> get X 2 (i + 1) = 0) /\
      (get X 0 i > 0 -> ~ get X 0 i > 0.4572 ->
       get X 2 (i + 1) =
         p_peak self * sigmoid (ts !!! i) (alpha_s self) (t_peak self)
         * np_pow (v / (v + get X 0 i * a)) (gama self)).
Proof.
  assert (Hz : barrel_or_default (Some 0) = 0.4572) by apply barrel_or_default_zero.
  assert (Hi : 18 * u.inch = 0.4572) by (unfold u.inch; lra).
  split; [lra|]. split; [exact Hi|].
  split; [unfold sim; by rewrite Hz, barrel_or_default_None|].
  split; [unfold sim; rewrite Hz, barrel_or_default_nonzero by lra; done|].
  intros ts X i Hsim Hle.
  destruct (sim_reads_properties _ _ _ _ _ Hsim) as (Ha & Hv & _).
  exists (v_case_val self), (a_case_val self).
  split; [exact Hv|]. split; [exact Ha|].
  destruct (sim_inv _ _ _ _ _ Hsim) as (-> & _ & _ & Hst).
  pose proof N_val as HN.
  destruct (Hst i) as (F & _ & _ & _ & Hp & _); [lia|].
  rewrite Hz in Hp. rewrite Hp.
  destruct (Rgt_dec (get X 0 i) 0.4572) as [Hgt|Hngt].
  - split; [intros _; ring|intros _ Hn; contradiction].
  - split; [intros Hgt; contradiction|intros _ _; reflexivity].
Qed.

Lemma zero_barrel_is_default_witness :
  exists X : array2,
    sim C9mm false (Some 0) = Ok (t, X) /\ (0 <= N - 2)%nat /\
    exists v a : R,
      v_case C9mm = Ok v /\ a_case C9mm = Ok a /\
      (get X 0 0 > 0.4572 -> get X 2 (0 + 1) = 0) /\
      (get X 0 0 > 0 -> ~ get X 0 0 > 0.4572 ->
       get X 2 (0 + 1) =
         p_peak C9mm * sigmoid (t !!! 0%nat) (alpha_s C9mm) (t_peak C9mm)
         * np_pow (v / (v + get X 0 0 * a)) (gama C9mm)).
Proof.
  destruct (sim_total C9mm false (Some 0) C9mm_in_range (or_introl eq_refl)) as [X HX].
  exists X. split; [exact HX|]. split; [apply Nat.le_0_l|].
  destruct (zero_barrel_is_default C9mm false) as (_ & _ & _ & _ & Hrun).
  exact (Hrun t X 0%nat HX (Nat.le_0_l _)).
Defined.

(** * Further properties of the code *)

(** ** units.py: how the constants relate *)

(** X2: the derived constants are [ft = 0.3048], [oz = lb / 16] and
    [ozf = lbf / 16]; but the two pressure constants do not agree with
    each other: [ksi] is not [1000 * psi], it exceeds it by a little under
    1.8 Pa. *)
Theorem units_relations :
  u.ft = 0.3048 /\ 16 * u.oz = u.lb /\ 16 * u.ozf = u.lbf /\
  u.ksi <> 1000 * u.psi /\ 1.79 < u.ksi - 1000 * u.psi < 1.8.
Proof.
  unfold u.ft, u.oz, u.ozf, u.ksi, u.psi, u.inch, u.lb, u.lbf.
  repeat split; lra.
Qed.

(** ** curves.py: more on the sigmoid *)

(** X3: the sigmoid is symmetric about its midpoint, as its docstring
    says: the values at [x_0 + d] and [x_0 - d] add up to 1, whatever the
    steepness. *)
Theorem sigmoid_symmetric (alpha x_0 d : R) :
  sigmoid (x_0 + d) alpha x_0 + sigmoid (x_0 - d) alpha x_0 = 1.
Proof.
  unfold sigmoid, py_exp.
  replace (- alpha * (x_0 + d - x_0)) with (- (alpha * d)) by ring.
  replace (- alpha * (x_0 - d - x_0)) with (alpha * d) by ring.
  rewrite exp_Ropp.
  pose proof (exp_pos (alpha * d)) as He.
  field. lra.
Qed.

(** X4: the sigmoid is only increasing for a positive steepness: with
    steepness 0 it is the constant one half, and with a negative steepness
    it is strictly decreasing. *)
Theorem sigmoid_other_steepness :
  (forall x x_0 : R, sigmoid x 0 x_0 = 0.5) /\
  (forall alpha x_0 x y : R,
      alpha < 0 -> x < y -> sigmoid y alpha x_0 < sigmoid x alpha x_0).
Proof.
  split.
  - intros x x_0. unfold sigmoid, py_exp.
    replace (- 0 * (x - x_0)) with 0 by ring. rewrite exp_0. lra.
  - intros alpha x_0 x y Ha Hxy. unfold sigmoid.
    pose proof (sigmoid_denominator_pos x alpha x_0) as Hx.
    pose proof (sigmoid_denominator_pos y alpha x_0) as Hy.
    unfold Rdiv. rewrite !Rmult_1_l.
    apply Rinv_lt_contravar.
    + apply Rmult_lt_0_compat; lra.
    + apply Rplus_lt_compat_l. unfold py_exp. apply exp_increasing. nra.
Qed.

Lemma sigmoid_other_steepness_witness :
  -1 < 0 /\ 0 < 1 /\ sigmoid 1 (-1) 0 < sigmoid 0 (-1) 0.
Proof.
  assert (H1 : -1 < 0) by lra.
  assert (H2 : 0 < 1) by lra.
  split; [exact H1|]. split; [exact H2|].
  exact (proj2 sigmoid_other_steepness (-1) 0 0 1 H1 H2).
Defined.

Lemma exp_6_lower : 64 < exp 6.
Proof.
  assert (H2 : 2 < exp 1).
  { pose proof (exp_ineq1 1). lra. }
  replace 6 with (1 + 1 + 1 + 1 + 1 + 1) by ring.
  rewrite !exp_plus.
  assert (H4 : 4 < exp 1 * exp 1) by nra.
  assert (H8 : 8 < exp 1 * exp 1 * exp 1) by nra.
  assert (H16 : 16 < exp 1 * exp 1 * exp 1 * exp 1) by nra.
  assert (H32 : 32 < exp 1 * exp 1 * exp 1 * exp 1 * exp 1) by nra.
  nra.
Qed.

(** The sigmoid depends on [x], [alpha] and [x_0] through
    [alpha * (x - x_0)] only. *)
Lemma sigmoid_scale (x alpha x_0 : R) :
  sigmoid x alpha x_0 = sigmoid (alpha * (x - x_0)) 1 0.
Proof.
  unfold sigmoid. f_equal. f_equal. f_equal. ring.
Qed.

(** X5: the notes of the docstring: with [alpha = 6 / R] the sigmoid makes
    its transition within [x_0 - R] and [x_0 + R], where it takes the
    values [1 / (1 + exp 6)], below 0.02, and [1 / (1 + exp (-6))], above
    0.98. *)
Theorem sigmoid_fits_range (R0 x_0 : R) :
  R0 <> 0 ->
  sigmoid (x_0 - R0) (6 / R0) x_0 = 1 / (1 + exp 6) /\
  sigmoid (x_0 + R0) (6 / R0) x_0 = 1 / (1 + exp (- 6)) /\
  sigmoid (x_0 - R0) (6 / R0) x_0 < 0.02 /\
  0.98 < sigmoid (x_0 + R0) (6 / R0) x_0.
Proof.
  intros HR.
  assert (Hlo : sigmoid (x_0 - R0) (6 / R0) x_0 = 1 / (1 + exp 6)).
  { unfold sigmoid, py_exp. do 3 f_equal. field. exact HR. }
  assert (Hhi : sigmoid (x_0 + R0) (6 / R0) x_0 = 1 / (1 + exp (- 6))).
  { unfold sigmoid, py_exp. do 3 f_equal. field. exact HR. }
  pose proof exp_6_lower as H6.
  split; [exact Hlo|]. split; [exact Hhi|]. rewrite Hlo, Hhi. split.
  - apply (Rmult_lt_reg_r (1 + exp 6)); [lra|].
    unfold Rdiv. rewrite Rmult_assoc, Rinv_l by lra. lra.
  - replace (exp (- 6)) with (/ exp 6)
      by (rewrite <- exp_Ropp; f_equal; lra).
    assert (Hinv : 0 < / exp 6 < / 64).
    { split; [apply Rinv_0_lt_compat; lra|].
      apply Rinv_lt_contravar; [|exact H6]. nra. }
    apply (Rmult_lt_reg_r (1 + / exp 6)); [lra|].
    unfold Rdiv. rewrite Rmult_assoc, Rinv_l by lra. lra.
Qed.

Lemma sigmoid_fits_range_witness :
  0.5 <> 0 /\
  sigmoid (0 - 0.5) (6 / 0.5) 0 < 0.02 /\ 0.98 < sigmoid (0 + 0.5) (6 / 0.5) 0.
Proof.
  assert (H : 0.5 <> 0) by lra.
  split; [exact H|].
  exact (proj2 (proj2 (sigmoid_fits_range 0.5 0 H))).
Defined.

(** ** cartridges.py: the derived properties *)

(** X6: [a_chamber] and [a_bullet] return exactly when the square of
    [d_chamber] is within the range of the floats, [a_case] and [v_case]
    exactly when the square of [d_case] is, and raise [OverflowError]
    otherwise.  The areas they return are never negative, whatever the
    sign of the diameter (the unset [-1] included); [a_bullet] is four
    times [a_chamber], because it leaves out the division by 4; and the
    powder volume is [pi * d_case^2 * l_case_i / 4]. *)
Theorem areas (self : Cartridge) :
  (d_chamber self ^ 2 <= float_max ->
   exists a b : R,
     a_chamber self = Ok a /\ a_bullet self = Ok b /\
     0 <= a /\ 0 <= b /\ b = 4 * a) /\
  (float_max < d_chamber self ^ 2 ->
   a_chamber self = Raise OverflowError /\
   a_bullet self = Raise OverflowError) /\
  (d_case self ^ 2 <= float_max ->
   exists a v : R,
     a_case self = Ok a /\ v_case self = Ok v /\
     0 <= a /\ v = PI * (d_case self) ^ 2 * l_case_i self / 4) /\
  (float_max < d_case self ^ 2 ->
   a_case self = Raise OverflowError /\ v_case self = Raise OverflowError).
Proof.
  rewrite a_chamber_spec, a_bullet_spec, a_case_spec, v_case_spec.
  pose proof PI_RGT_0 as Hpi.
  pose proof (pow2_ge_0 (d_chamber self)) as Hch.
  pose proof (pow2_ge_0 (d_case self)) as Hca.
  assert (Hc : 0 <= PI * d_chamber self ^ 2) by (apply Rmult_le_pos; lra).
  assert (Hd : 0 <= PI * d_case self ^ 2) by (apply Rmult_le_pos; lra).
  split; [|split; [|split]].
  - intros Hr.
    destruct (Rle_dec (d_chamber self ^ 2) float_max); [|contradiction].
    eexists _, _. split; [reflexivity|]. split; [reflexivity|].
    unfold a_chamber_val. set (A := PI * d_chamber self ^ 2) in *.
    repeat split; lra.
  - intros Hr.
    destruct (Rle_dec (d_chamber self ^ 2) float_max); [lra|done].
  - intros Hr.
    destruct (Rle_dec (d_case self ^ 2) float_max); [|contradiction].
    eexists _, _. split; [reflexivity|]. split; [reflexivity|].
    unfold v_case_val, a_case_val. set (A := PI * d_case self ^ 2) in *.
    split; [lra|]. replace 4.0 with 4 by lra. field.
  - intros Hr.
    destruct (Rle_dec (d_case self ^ 2) float_max); [lra|done].
Qed.

Lemma areas_witness :
  (exists a b : R,
     a_chamber C9mm = Ok a /\ a_bullet C9mm = Ok b /\
     0 <= a /\ 0 <= b /\ b = 4 * a) /\
  (exists a v : R,
     a_case C9mm = Ok a /\ v_case C9mm = Ok v /\
     0 <= a /\ v = PI * (d_case C9mm) ^ 2 * l_case_i C9mm / 4).
Proof.
  destruct C9mm_in_range as [Hc Hch].
  destruct (areas C9mm) as (Ha & _ & Hv & _).
  exact (conj (Ha Hch) (Hv Hc)).
Defined.

(** X7: [p_yield] and [p_uts] raise [ZeroDivisionError] exactly when
    [d_case] is 0.  When they return, the two pressures stand in the ratio
    of the two strengths, both are 0 when the chamber is as wide as the
    case, and for positive diameters with the chamber at least as wide as
    the case and [0 <= yield_case <= uts_case] the yield pressure is
    between 0 and the burst pressure. *)
Theorem yield_and_burst_pressure (self : Cartridge) :
  (d_case self = 0 ->
   p_yield self = Raise ZeroDivisionError /\
   p_uts self = Raise ZeroDivisionError) /\
  (d_case self <> 0 ->
   exists p_y p_u : R,
     p_yield self = Ok p_y /\ p_uts self = Ok p_u /\
     p_y = yield_case self * (d_chamber self - d_case self) / d_case self /\
     p_u = uts_case self * (d_chamber self - d_case self) / d_case self /\
     p_y * uts_case self = p_u * yield_case self /\
     (d_chamber self = d_case self -> p_y = 0 /\ p_u = 0) /\
     (0 < d_case self -> d_case self <= d_chamber self ->
      0 <= yield_case self <= uts_case self -> 0 <= p_y <= p_u)).
Proof.
  unfold p_yield, p_uts, py_div, t_case. split.
  - intros Hd. destruct (Req_dec_T (d_case self) 0); [done|contradiction].
  - intros Hd. destruct (Req_dec_T (d_case self) 0) as [?|_]; [contradiction|].
    eexists _, _. split; [reflexivity|]. split; [reflexivity|].
    split; [field; repeat split; (exact Hd || lra)|]. split; [field; repeat split; (exact Hd || lra)|].
    split; [field; repeat split; (exact Hd || lra)|]. split.
    + intros ->. split; field; repeat split; (exact Hd || lra).
    + intros Hpos Hle [Hy Hu].
      assert (Hi : 0 < / d_case self) by (by apply Rinv_0_lt_compat).
      assert (Ht : 0 <= (d_chamber self - d_case self) / 2.0) by lra.
      unfold Rdiv at 1 3. split.
      * apply Rmult_le_pos; [|lra]. apply Rmult_le_pos; [|lra]. lra.
      * apply Rmult_le_compat_r; [lra|].
        apply Rmult_le_compat_r; [lra|]. lra.
Qed.

Lemma yield_and_burst_pressure_witness :
  exists p_y p_u : R,
    p_yield C9mm = Ok p_y /\ p_uts C9mm = Ok p_u /\
    p_y * uts_case C9mm = p_u * yield_case C9mm /\ 0 <= p_y <= p_u.
Proof.
  destruct (proj2 (yield_and_burst_pressure C9mm) C9mm_d_case)
    as (p_y & p_u & Hy & Hu & _ & _ & Hr & _ & Hb).
  exists p_y, p_u. split; [exact Hy|]. split; [exact Hu|]. split; [exact Hr|].
  pose proof C9mm_valid as [].
  apply Hb; [done|done|]. simpl. lra.
Defined.

(** ** cartridges.py: comparing runs *)

(** Two arrays that start from zero and obey the step relation of the same
    bundle, with barrels that cut the pressure off at the same steps,
    agree on position, velocity and pressure, whatever the friction flags;
    with the same flag they agree on the force too. *)
Lemma runs_agree (self : Cartridge) (fr fr' : bool) (lb lb' : R) (n : nat)
    (X X' : array2) :
  (forall r : nat, (r < 4)%nat -> get X r 0 = 0) ->
  (forall r : nat, (r < 4)%nat -> get X' r 0 = 0) ->
  (forall i : nat, (i + 1 < n)%nat -> step_rel self fr lb X i) ->
  (forall i : nat, (i + 1 < n)%nat -> step_rel self fr' lb' X' i) ->
  (forall i : nat, (i + 1 < n)%nat -> get X 0 i > lb <-> get X 0 i > lb') ->
  forall j : nat, (j < n)%nat ->
    get X 0 j = get X' 0 j /\ get X 1 j = get X' 1 j /\
    get X 2 j = get X' 2 j /\ (fr = fr' -> get X 3 j = get X' 3 j).
Proof.
  intros H0 H0' Hst Hst' Hcut j. induction j as [|j IH]; intros Hj.
  - rewrite !H0, !H0' by lia. done.
  - destruct IH as (Ex & Ev & Ep & _); [lia|].
    replace (S j) with (j + 1)%nat by lia.
    destruct (Hst j) as (F & HF & Hx & Hv & Hp & HFc); [lia|].
    destruct (Hst' j) as (F' & HF' & Hx' & Hv' & Hp' & HFc'); [lia|].
    assert (Hpp : get X 2 (j + 1) = get X' 2 (j + 1)).
    { rewrite Hp, Hp', <- Ex.
      destruct (Rgt_dec (get X 0 j) lb) as [Hgt|Hngt];
        destruct (Rgt_dec (get X 0 j) lb') as [Hgt'|Hngt']; try reflexivity.
      - exfalso. apply Hngt', (Hcut j); [lia|done].
      - exfalso. apply Hngt, (Hcut j); [lia|done]. }
    split; [by rewrite Hx, Hx', Ex, Ev|].
    split; [by rewrite Hv, Hv', Ev, Ep|].
    split; [exact Hpp|].
    intros <-. rewrite HFc, HFc'. rewrite <- Hp, <- Hp', <- Hpp in *.
    assert (F = F') as <-; [|reflexivity].
    destruct fr.
    + destruct HF as (p_y & Hy & ->). destruct HF' as (p_y' & Hy' & ->).
      rewrite Hy in Hy'. injection Hy' as <-. reflexivity.
    + by rewrite HF, HF'.
Qed.

Lemma in_range_dec (self : Cartridge) : {in_range self} + {~ in_range self}.
Proof.
  unfold in_range.
  destruct (Rle_dec (d_case self ^ 2) float_max);
    destruct (Rle_dec (d_chamber self ^ 2) float_max); [left|right..]; tauto.
Qed.

(** X8: the outcome of [sim] is decided by the two diameters and the
    friction flag alone.  It raises [ZeroDivisionError] exactly when
    friction is on and [d_case] is 0, the division in [p_yield]; it raises
    [OverflowError] exactly when the square of a diameter is beyond the
    range of the floats and that division does not fail first; and it
    returns the time vector and a 4 x 3000 array exactly in the remaining
    case, whatever values the other fields hold. *)
Theorem sim_raises_iff (self : Cartridge) (friction : bool)
    (l_barrel : option R) :
  (sim self friction l_barrel = Raise ZeroDivisionError <->
   friction = true /\ d_case self = 0) /\
  (sim self friction l_barrel = Raise OverflowError <->
   ~ in_range self /\ (friction = false \/ d_case self <> 0)) /\
  ((exists X : array2,
       sim self friction l_barrel = Ok (t, X) /\ shape 4 3000 X) <->
   in_range self /\ (friction = false \/ d_case self <> 0)).
Proof.
  assert (Hcases :
    (friction = true /\ d_case self = 0 /\
     sim self friction l_barrel = Raise ZeroDivisionError) \/
    (~ in_range self /\ (friction = false \/ d_case self <> 0) /\
     sim self friction l_barrel = Raise OverflowError) \/
    (in_range self /\ (friction = false \/ d_case self <> 0) /\
     exists X : array2,
       sim self friction l_barrel = Ok (t, X) /\ shape 4 3000 X)).
  { assert (Hok : (friction = true /\ d_case self = 0) \/
                  (friction = false \/ d_case self <> 0)).
    { destruct friction; [|by right; left].
      destruct (Req_dec_T (d_case self) 0); [by left|by right; right]. }
    destruct Hok as [[-> Hd]|Hok].
    - left. split; [done|]. split; [done|]. by apply sim_raises.
    - right. destruct (in_range_dec self) as [Hr|Hr].
      + right. split; [done|]. split; [done|].
        destruct (sim_total self friction l_barrel Hr Hok) as [X HX].
        exists X. split; [exact HX|].
        destruct (sim_inv _ _ _ _ _ HX) as (_ & Hsh & _).
        by rewrite <- N_val.
      + left. split; [done|]. split; [done|]. by apply sim_overflows. }
  destruct Hcases as [(Hf & Hd & Hs)|[(Hr & Hok & Hs)|(Hr & Hok & X & Hs & Hsh)]];
    rewrite Hs.
  - split; [done|]. split.
    + split; [discriminate|]. intros [_ [?|?]]; [congruence|contradiction].
    + split; [intros (X & HX & _); discriminate|].
      intros [_ [?|?]]; [congruence|contradiction].
  - split; [|split].
    + split; [discriminate|]. intros [? ?]. destruct Hok; [congruence|contradiction].
    + done.
    + split; [intros (X & HX & _); discriminate|]. intros [? _]. contradiction.
  - split; [|split].
    + split; [discriminate|]. intros [? ?]. destruct Hok; [congruence|contradiction].
    + split; [discriminate|]. intros [? _]. contradiction.
    + split; [done|]. intros _. exists X. done.
Qed.

(** X9: explicit Euler lags by one step per integration: in every run on
    a bundle with a non-zero mass the position is still 0 at the indices
    0, 1 and 2 and the velocity at 0 and 1; the first motion is
    [v_2 = p_1 * a_case / m_bullet * 0.9 * Ts], with the area that
    [a_case] returns, and [x_3 = v_2 * Ts]. *)
Theorem euler_lag (self : Cartridge) (friction : bool)
    (l_barrel : option R) (ts : list R) (X : array2) :
  sim self friction l_barrel = Ok (ts, X) ->
  m_bullet self <> 0 ->
  exists area : R,
    a_case self = Ok area /\
    get X 0 0 = 0 /\ get X 0 1 = 0 /\ get X 0 2 = 0 /\
    get X 1 0 = 0 /\ get X 1 1 = 0 /\
    get X 1 2 = get X 2 1 * area / m_bullet self * 0.9 * Ts /\
    get X 0 3 = get X 1 2 * Ts.
Proof.
  intros Hsim Hm.
  destruct (sim_reads_properties _ _ _ _ _ Hsim) as (Ha & _ & _).
  exists (a_case_val self). split; [exact Ha|].
  destruct (sim_inv _ _ _ _ _ Hsim) as (_ & _ & H0 & Hst).
  pose proof N_val as HN.
  destruct (Hst 0%nat) as (F0 & _ & Hx1 & Hv1 & _); [lia|].
  destruct (Hst 1%nat) as (F1 & _ & Hx2 & Hv2 & _); [lia|].
  destruct (Hst 2%nat) as (F2 & _ & Hx3 & _); [lia|].
  simpl in Hx1, Hv1, Hx2, Hv2, Hx3.
  rewrite !H0 in Hx1, Hv1 by lia.
  assert (E1 : get X 0 1 = 0) by (rewrite Hx1; ring).
  assert (E2 : get X 1 1 = 0) by (rewrite Hv1; field; exact Hm).
  assert (E3 : get X 0 2 = 0) by (rewrite Hx2, E1, E2; ring).
  rewrite !H0 by lia. repeat split; try done.
  - rewrite Hv2, E2. ring.
  - rewrite Hx3, E3. ring.
Qed.

Lemma C9mm_m_bullet : m_bullet C9mm <> 0.
Proof. pose proof (valid_m_bullet _ C9mm_valid). lra. Qed.

Lemma euler_lag_witness :
  exists X : array2,
    sim C9mm false None = Ok (t, X) /\ m_bullet C9mm <> 0 /\
    get X 0 2 = 0 /\ get X 0 3 = get X 1 2 * Ts.
Proof.
  destruct (sim_total C9mm false None C9mm_in_range (or_introl eq_refl)) as [X HX].
  exists X. split; [exact HX|]. split; [exact C9mm_m_bullet|].
  destruct (euler_lag C9mm false None t X HX C9mm_m_bullet)
    as (area & _ & _ & _ & E2 & _ & _ & _ & E3).
  exact (conj E2 E3).
Defined.

Lemma np_pow_one (g : R) : np_pow 1 g = 1.
Proof. unfold np_pow, Rpower. rewrite ln_1, Rmult_0_r. apply exp_0. Qed.

(** X10: with a non-negative barrel and a non-zero powder volume the first
    pressure sample is [p_peak * sigmoid(0, alpha_s, t_peak)], the gas not
    having expanded yet; with [alpha_s = 6 / t_peak], as every initialiser
    sets it, that is [p_peak / (1 + exp 6)], under 2 percent of a positive
    peak. *)
Theorem first_pressure_sample (self : Cartridge) (friction : bool)
    (l_barrel : option R) (ts : list R) (X : array2) :
  sim self friction l_barrel = Ok (ts, X) ->
  0 <= barrel_or_default l_barrel ->
  v_case self <> Ok 0 ->
  get X 2 1 = p_peak self * sigmoid 0 (alpha_s self) (t_peak self) /\
  (t_peak self <> 0 -> alpha_s self = 6.0 / t_peak self ->
   get X 2 1 = p_peak self / (1 + exp 6) /\
   (0 < p_peak self -> 0 < get X 2 1 < 0.02 * p_peak self)).
Proof.
  intros Hsim Hlb Hv0.
  assert (Hv : v_case_val self <> 0).
  { destruct (sim_reads_properties _ _ _ _ _ Hsim) as (_ & Hv & _).
    intros Hz. apply Hv0. by rewrite Hv, Hz. }
  destruct (sim_inv _ _ _ _ _ Hsim) as (_ & _ & H0 & Hst).
  pose proof N_val as HN.
  destruct (Hst 0%nat) as (F0 & _ & _ & _ & Hp & _); [lia|].
  simpl in Hp. rewrite H0 in Hp by lia.
  rewrite t_lookup in Hp by lia. simpl in Hp.
  destruct (Rgt_dec 0 (barrel_or_default l_barrel)) as [Hgt|_]; [lra|].
  replace (v_case_val self / (v_case_val self + 0 * a_case_val self)) with 1 in Hp
    by (field; lra).
  rewrite np_pow_one, Rmult_1_r, Rmult_0_l in Hp.
  split; [exact Hp|].
  intros Ht Ha.
  assert (Hs : sigmoid 0 (alpha_s self) (t_peak self) = 1 / (1 + exp 6)).
  { rewrite Ha. unfold sigmoid, py_exp.
    replace (- (6.0 / t_peak self) * (0 - t_peak self)) with 6; [reflexivity|].
    replace 6.0 with 6 by lra. field. exact Ht. }
  rewrite Hp, Hs. split; [unfold Rdiv; ring|].
  intros Hpk. pose proof exp_6_lower as H6.
  assert (Hi : 0 < / (1 + exp 6) < / 50).
  { split; [apply Rinv_0_lt_compat; lra|].
    apply Rinv_lt_contravar; [nra|lra]. }
  unfold Rdiv. rewrite Rmult_1_l. split; [apply Rmult_lt_0_compat; lra|].
  nra.
Qed.

Lemma C9mm_v_case_val : v_case_val C9mm <> 0.
Proof.
  pose proof C9mm_valid as [].
  pose proof (v_case_pos C9mm); lra.
Qed.

Lemma C9mm_v_case : v_case C9mm <> Ok 0.
Proof.
  destruct (in_range_returns C9mm C9mm_in_range) as (_ & -> & _).
  intros [=Hz]. by apply C9mm_v_case_val.
Qed.

Lemma first_pressure_sample_witness :
  exists X : array2,
    sim C9mm false None = Ok (t, X) /\
    0 <= barrel_or_default None /\ v_case C9mm <> Ok 0 /\
    get X 2 1 = p_peak C9mm * sigmoid 0 (alpha_s C9mm) (t_peak C9mm).
Proof.
  destruct (sim_total C9mm false None C9mm_in_range (or_introl eq_refl)) as [X HX].
  assert (Hlb : 0 <= barrel_or_default None)
    by (rewrite barrel_or_default_None; lra).
  exists X. split; [exact HX|]. split; [exact Hlb|].
  split; [exact C9mm_v_case|].
  exact (proj1 (first_pressure_sample C9mm false None t X HX Hlb C9mm_v_case)).
Defined.

(** X11: a negative barrel length is truthy and is kept as it is; the
    bullet at position 0 then counts as having left the barrel, the
    driving pressure is cut off from the first step on, and, on a bundle
    with a non-zero mass and a non-zero powder volume (so that no division
    is by zero), position, velocity and pressure stay 0 over the whole
    run (the force as well with friction off). *)
Theorem negative_barrel (self : Cartridge) (friction : bool) (l : R)
    (ts : list R) (X : array2) :
  sim self friction (Some l) = Ok (ts, X) ->
  l < 0 ->
  m_bullet self <> 0 ->
  v_case self <> Ok 0 ->
  barrel_or_default (Some l) = l /\
  forall j : nat, (j < N)%nat ->
    get X 0 j = 0 /\ get X 1 j = 0 /\ get X 2 j = 0 /\
    (friction = false -> get X 3 j = 0).
Proof.
  intros Hsim Hl Hm _.
  assert (Hb : barrel_or_default (Some l) = l)
    by (apply barrel_or_default_nonzero; lra).
  split; [exact Hb|].
  destruct (sim_inv _ _ _ _ _ Hsim) as (_ & _ & H0 & Hst).
  rewrite Hb in Hst.
  intros j. induction j as [|j IH]; intros Hj.
  - rewrite !H0 by lia. done.
  - destruct IH as (Ex & Ev & Ep & _); [lia|].
    replace (S j) with (j + 1)%nat by lia.
    destruct (Hst j) as (F & HF & Hx & Hv & Hp & HFc); [lia|].
    rewrite Ex, Ev, Ep in *.
    destruct (Rgt_dec 0 l) as [_|Hn]; [|lra].
    rewrite Rmult_0_l in Hp.
    split; [rewrite Hx; ring|]. split; [rewrite Hv; field; exact Hm|].
    split; [exact Hp|]. intros ->. rewrite HFc, HF.
    rewrite !Rmult_0_l, Rminus_0_r.
    destruct (Rlt_dec 0 0); reflexivity.
Qed.

Lemma negative_barrel_witness :
  exists X : array2,
    sim C9mm false (Some (-1)) = Ok (t, X) /\ -1 < 0 /\
    m_bullet C9mm <> 0 /\ v_case C9mm <> Ok 0 /\
    forall j : nat, (j < N)%nat ->
      get X 0 j = 0 /\ get X 1 j = 0 /\ get X 2 j = 0 /\
      (false = false -> get X 3 j = 0).
Proof.
  destruct (sim_total C9mm false (Some (-1)) C9mm_in_range
              (or_introl eq_refl)) as [X HX].
  assert (Hl : -1 < 0) by lra.
  exists X. split; [exact HX|]. split; [exact Hl|].
  split; [exact C9mm_m_bullet|]. split; [exact C9mm_v_case|].
  exact (proj2 (negative_barrel C9mm false (-1) t X HX Hl C9mm_m_bullet
                  C9mm_v_case)).
Defined.

(** X12: the friction flag changes the force row only: the force is never
    fed back into the integration, so a run with friction and a run
    without it, on the same bundle and barrel, have the same positions,
    velocities and pressures at every index. *)
Theorem friction_leaves_kinematics (self : Cartridge) (l_barrel : option R)
    (ts ts' : list R) (X X' : array2) :
  sim self true l_barrel = Ok (ts, X) ->
  sim self false l_barrel = Ok (ts', X') ->
  ts = ts' /\
  forall j : nat, (j < N)%nat ->
    get X 0 j = get X' 0 j /\ get X 1 j = get X' 1 j /\
    get X 2 j = get X' 2 j.
Proof.
  intros Hsim Hsim'.
  destruct (sim_inv _ _ _ _ _ Hsim) as (-> & _ & H0 & Hst).
  destruct (sim_inv _ _ _ _ _ Hsim') as (-> & _ & H0' & Hst').
  split; [reflexivity|]. intros j Hj.
  destruct (runs_agree self true false _ _ N X X' H0 H0' Hst Hst') with (j := j)
    as (Ex & Ev & Ep & _); done.
Qed.

Lemma friction_leaves_kinematics_witness :
  exists X X' : array2,
    sim C9mm true None = Ok (t, X) /\ sim C9mm false None = Ok (t, X') /\
    forall j : nat, (j < N)%nat ->
      get X 0 j = get X' 0 j /\ get X 1 j = get X' 1 j /\
      get X 2 j = get X' 2 j.
Proof.
  destruct (sim_total C9mm true None C9mm_in_range (or_intror C9mm_d_case)) as [X HX].
  destruct (sim_total C9mm false None C9mm_in_range (or_introl eq_refl)) as [X' HX'].
  exists X, X'. split; [exact HX|]. split; [exact HX'|].
  exact (proj2 (friction_leaves_kinematics C9mm None t t X X' HX HX')).
Defined.

Lemma valid_wall_friction (self : Cartridge) :
  valid_bundle self -> 0 <= a_cw self * u_cw self.
Proof.
  intros []. pose proof PI_RGT_0.
  unfold a_cw. apply Rmult_le_pos; [|lra].
  apply Rmult_le_pos; [apply Rmult_le_pos|]; lra.
Qed.

(** X13: friction only takes force away: on a valid bundle, where the
    wall area times the friction coefficient is not negative, every force
    sample of the run with friction is at most the force sample of the run
    without it. *)
Theorem friction_lowers_force (self : Cartridge) (l_barrel : option R)
    (ts ts' : list R) (X X' : array2) :
  sim self true l_barrel = Ok (ts, X) ->
  sim self false l_barrel = Ok (ts', X') ->
  valid_bundle self ->
  forall j : nat, (j < N)%nat -> get X 3 j <= get X' 3 j.
Proof.
  intros Hsim Hsim' Hvalid.
  pose proof (valid_wall_friction self Hvalid) as Hau.
  destruct (sim_inv _ _ _ _ _ Hsim) as (_ & _ & H0 & Hst).
  destruct (sim_inv _ _ _ _ _ Hsim') as (_ & _ & H0' & Hst').
  intros j Hj. destruct j as [|j].
  - rewrite H0, H0' by lia. lra.
  - replace (S j) with (j + 1)%nat by lia.
    destruct (runs_agree self true false _ _ N X X' H0 H0' Hst Hst')
      with (j := (j + 1)%nat) as (_ & _ & Ep & _); [done|lia|].
    destruct (Hst j) as (F & (p_y & _ & HF) & _ & _ & Hp & HFc); [lia|].
    destruct (Hst' j) as (F' & HF' & _ & _ & Hp' & HFc'); [lia|].
    rewrite HFc, HFc', HF'. rewrite <- Hp, <- Hp', <- Ep in *.
    set (p := get X 2 (j + 1)) in *.
    assert (HFpos : 0 <= F).
    { rewrite HF. destruct (Rlt_dec p p_y) as [?|Hge]; [lra|].
      rewrite Rmult_assoc. apply Rmult_le_pos; [lra|exact Hau]. }
    destruct (Rlt_dec (p * a_chamber_val self - F) 0);
      destruct (Rlt_dec (p * a_chamber_val self - 0) 0); lra.
Qed.

Lemma friction_lowers_force_witness :
  exists X X' : array2,
    sim C9mm true None = Ok (t, X) /\ sim C9mm false None = Ok (t, X') /\
    valid_bundle C9mm /\
    forall j : nat, (j < N)%nat -> get X 3 j <= get X' 3 j.
Proof.
  destruct (sim_total C9mm true None C9mm_in_range (or_intror C9mm_d_case)) as [X HX].
  destruct (sim_total C9mm false None C9mm_in_range (or_introl eq_refl)) as [X' HX'].
  exists X, X'. split; [exact HX|]. split; [exact HX'|].
  split; [exact C9mm_valid|].
  exact (friction_lowers_force C9mm None t t X X' HX HX' C9mm_valid).
Defined.

(** X14: the barrel length matters only once the bullet has passed it: if
    in the run with one barrel no position read by the loop exceeds that
    barrel, the run with any longer barrel has the same samples in all
    four rows. *)
Theorem longer_barrel_same_run (self : Cartridge) (friction : bool)
    (l l' : option R) (ts ts' : list R) (X X' : array2) :
  sim self friction l = Ok (ts, X) ->
  sim self friction l' = Ok (ts', X') ->
  barrel_or_default l <= barrel_or_default l' ->
  (forall i : nat, (i <= N - 2)%nat -> get X 0 i <= barrel_or_default l) ->
  forall (r j : nat), (r < 4)%nat -> (j < N)%nat -> get X r j = get X' r j.
Proof.
  intros Hsim Hsim' Hll Hin r j Hr Hj.
  destruct (sim_inv _ _ _ _ _ Hsim) as (_ & _ & H0 & Hst).
  destruct (sim_inv _ _ _ _ _ Hsim') as (_ & _ & H0' & Hst').
  pose proof N_val as HN.
  destruct (runs_agree self friction friction _ _ N X X' H0 H0' Hst Hst')
    with (j := j) as (E0 & E1 & E2 & E3); [|done|].
  - intros i Hi. assert (get X 0 i <= barrel_or_default l) by (apply Hin; lia).
    split; intros ?; lra.
  - destruct r as [|[|[|[|r]]]]; try done; [by apply E3|lia].
Qed.

(** ** cartridges.py: runs on valid bundles *)

Lemma valid_moving (self : Cartridge) (friction : bool)
    (l_barrel : option R) (ts : list R) (X : array2) :
  sim self friction l_barrel = Ok (ts, X) ->
  valid_bundle self -> 0 <= gama self -> 0 <= barrel_or_default l_barrel ->
  forall j : nat, (j < N)%nat -> moving self X j.
Proof.
  intros Hsim [] Hg Hlb j Hj.
  destruct (sim_inv _ _ _ _ _ Hsim) as (_ & _ & H0 & Hst).
  by apply (moving_all self friction (barrel_or_default l_barrel) N).
Qed.

(** The bullet is never faster, nor further, than the peak pressure
    acting all the time would have brought it. *)
Lemma motion_bound (self : Cartridge) (friction : bool)
    (l_barrel : option R) (ts : list R) (X : array2) :
  sim self friction l_barrel = Ok (ts, X) ->
  valid_bundle self -> 0 <= gama self -> 0 <= barrel_or_default l_barrel ->
  let K := p_peak self * a_case_val self / m_bullet self * 0.9 * Ts in
  forall j : nat, (j < N)%nat ->
    get X 1 j <= INR j * K /\ get X 0 j <= INR j * (INR j * K) * Ts.
Proof.
  intros Hsim Hvalid Hg Hlb K.
  pose proof (valid_moving _ _ _ _ _ Hsim Hvalid Hg Hlb) as Hmv.
  destruct (sim_inv _ _ _ _ _ Hsim) as (_ & _ & H0 & Hst).
  destruct Hvalid.
  assert (HTs : 0 < Ts) by (unfold Ts; lra).
  assert (Ha : 0 < a_case_val self) by (by apply a_case_pos).
  assert (Hc : 0 < a_case_val self / m_bullet self * 0.9 * Ts).
  { apply Rmult_lt_0_compat; [|lra]. apply Rmult_lt_0_compat; [|lra].
    apply Rdiv_lt_0_compat; lra. }
  assert (HK : K = p_peak self * (a_case_val self / m_bullet self * 0.9 * Ts))
    by (unfold K, Rdiv; ring).
  assert (HK0 : 0 <= K) by (rewrite HK; apply Rmult_le_pos; lra).
  intros j. induction j as [|j IH]; intros Hj.
  - rewrite !H0 by lia. simpl. lra.
  - destruct IH as [Hv Hx]; [lia|].
    destruct (Hmv j) as (_ & _ & [_ Hp] & _); [lia|].
    destruct (Hst j) as (F & _ & Ex & Ev & _); [lia|].
    rewrite S_INR. replace (S j) with (j + 1)%nat in * by lia.
    pose proof (pos_INR j) as Hj0.
    assert (Hacc : get X 2 j * a_case_val self / m_bullet self * 0.9 * Ts <= K).
    { rewrite HK.
      replace (get X 2 j * a_case_val self / m_bullet self * 0.9 * Ts)
        with (get X 2 j * (a_case_val self / m_bullet self * 0.9 * Ts))
        by (unfold Rdiv; ring).
      apply Rmult_le_compat_r; lra. }
    split; [rewrite Ev; lra|].
    rewrite Ex.
    assert (HvT : get X 1 j * Ts <= INR j * K * Ts)
      by (apply Rmult_le_compat_r; lra).
    assert (HjK : 0 <= INR j * K * Ts).
    { apply Rmult_le_pos; [apply Rmult_le_pos|]; lra. }
    assert (HKT : 0 <= K * Ts) by (apply Rmult_le_pos; lra).
    replace ((INR j + 1) * ((INR j + 1) * K) * Ts)
      with (INR j * (INR j * K) * Ts + INR j * K * Ts
            + (INR j * K * Ts + K * Ts)) by ring.
    lra.
Qed.

(** The 9 mm bullet stays within 100 m during the 3 ms of the run. *)
Lemma C9mm_within_100 (friction : bool) (l_barrel : option R)
    (X : array2) :
  sim C9mm friction l_barrel = Ok (t, X) ->
  0 <= barrel_or_default l_barrel ->
  forall i : nat, (i < N)%nat -> get X 0 i <= 100.
Proof.
  intros Hsim Hlb i Hi.
  assert (Hg : 0 <= gama C9mm) by (simpl; lra).
  destruct (motion_bound _ _ _ _ _ Hsim C9mm_valid Hg Hlb i Hi) as [_ Hx].
  set (K := p_peak C9mm * a_case_val C9mm / m_bullet C9mm * 0.9 * Ts) in *.
  assert (HK : 0 <= K <= 4).
  { assert (Ha : 0 < a_case_val C9mm <= 8.2e-5).
    { unfold a_case_val, u.mm. simpl. pose proof PI_4. pose proof PI_RGT_0.
      unfold u.mm. lra. }
    assert (Hp : 0 < p_peak C9mm <= 3.8e8) by (simpl; unfold u.ksi; lra).
    assert (Hm : 7.45e-3 <= m_bullet C9mm)
      by (simpl; unfold u.grains; lra).
    set (a := a_case_val C9mm) in *. set (p := p_peak C9mm) in *.
    set (m := m_bullet C9mm) in *.
    assert (Hpa : 0 < p * a <= 31160) by nra.
    assert (Hi' : 0 < / m <= / 7.45e-3).
    { split; [apply Rinv_0_lt_compat; lra|].
      apply Rinv_le_contravar; lra. }
    assert (Hq : 0 <= p * a / m <= 4.2e6).
    { unfold Rdiv. split; [apply Rmult_le_pos; lra|]. nra. }
    unfold K, Ts. lra. }
  assert (Hn : 0 <= INR i <= 3000).
  { split; [apply pos_INR|].
    replace 3000 with (INR 3000) by (rewrite INR_IZR_INZ; reflexivity).
    apply le_INR. rewrite N_val in Hi. lia. }
  assert (HnK : 0 <= INR i * K <= 12000) by nra.
  assert (Hnn : INR i * (INR i * K) <= 3.6e7) by nra.
  unfold Ts in Hx. lra.
Qed.

Lemma longer_barrel_same_run_witness :
  exists X X' : array2,
    sim C9mm true (Some 100) = Ok (t, X) /\
    sim C9mm true (Some 200) = Ok (t, X') /\
    barrel_or_default (Some 100) <= barrel_or_default (Some 200) /\
    (forall i : nat, (i <= N - 2)%nat ->
       get X 0 i <= barrel_or_default (Some 100)) /\
    (get X 0 3 > 0 /\ get X 2 1 > 0) /\
    (forall r j : nat, (r < 4)%nat -> (j < N)%nat -> get X r j = get X' r j).
Proof.
  destruct (sim_total C9mm true (Some 100) C9mm_in_range
              (or_intror C9mm_d_case)) as [X HX].
  destruct (sim_total C9mm true (Some 200) C9mm_in_range
              (or_intror C9mm_d_case)) as [X' HX'].
  assert (H1 : barrel_or_default (Some 100) = 100)
    by (apply barrel_or_default_nonzero; lra).
  assert (H2 : barrel_or_default (Some 200) = 200)
    by (apply barrel_or_default_nonzero; lra).
  assert (Hll : barrel_or_default (Some 100) <= barrel_or_default (Some 200))
    by (rewrite H1, H2; lra).
  assert (Hlb : 0 <= barrel_or_default (Some 100)) by (rewrite H1; lra).
  pose proof N_val as HN.
  assert (Hin : forall i : nat, (i <= N - 2)%nat ->
            get X 0 i <= barrel_or_default (Some 100)).
  { intros i Hi. rewrite H1.
    apply (C9mm_within_100 true (Some 100) X HX Hlb). lia. }
  assert (Hg : 0 <= gama C9mm) by (simpl; lra).
  assert (Hmoves : get X 0 3 > 0 /\ get X 2 1 > 0).
  { destruct (valid_moving _ _ _ _ _ HX C9mm_valid Hg Hlb 3%nat)
      as (_ & _ & _ & _ & _ & Hx3); [lia|].
    destruct (valid_moving _ _ _ _ _ HX C9mm_valid Hg Hlb 1%nat)
      as (_ & _ & _ & Hp1 & _); [lia|].
    split; [apply Hx3; lia|by apply Hp1]. }
  exists X, X'. split; [exact HX|]. split; [exact HX'|].
  split; [exact Hll|]. split; [exact Hin|]. split; [exact Hmoves|].
  exact (longer_barrel_same_run C9mm true (Some 100) (Some 200) t t X X'
           HX HX' Hll Hin).
Defined.

(** X15: on a valid bundle with squared diameters within the range of the
    floats, a non-negative specific heat ratio and a non-negative barrel,
    [sim] returns, and in its trajectory position,
    velocity and pressure are never negative, the pressure never exceeds
    [p_peak], and position and velocity never decrease from one sample to
    the next: the model has nothing that slows the bullet down. *)
Theorem valid_run_monotone (self : Cartridge) (friction : bool)
    (l_barrel : option R) :
  valid_bundle self -> in_range self ->
  0 <= gama self -> 0 <= barrel_or_default l_barrel ->
  exists X : array2,
    sim self friction l_barrel = Ok (t, X) /\
    forall j : nat, (j < N)%nat ->
      0 <= get X 0 j /\ 0 <= get X 1 j /\ 0 <= get X 2 j <= p_peak self /\
      ((j + 1 < N)%nat ->
       get X 0 j <= get X 0 (j + 1) /\ get X 1 j <= get X 1 (j + 1)).
Proof.
  intros Hvalid Hr Hg Hlb.
  destruct (sim_total self friction l_barrel Hr) as [X HX].
  { right. pose proof (valid_d_case self Hvalid). lra. }
  exists X. split; [exact HX|]. intros j Hj.
  destruct (valid_moving _ _ _ _ _ HX Hvalid Hg Hlb j Hj)
    as (Hx & Hv & Hp & _).
  split; [exact Hx|]. split; [exact Hv|]. split; [exact Hp|].
  intros Hj1.
  destruct (sim_inv _ _ _ _ _ HX) as (_ & _ & _ & Hst).
  destruct (Hst j Hj1) as (F & _ & Ex & Ev & _).
  destruct Hvalid.
  assert (HTs : 0 < Ts) by (unfold Ts; lra).
  assert (Ha : 0 < a_case_val self) by (by apply a_case_pos).
  assert (Hacc : 0 <= get X 2 j * a_case_val self / m_bullet self * 0.9 * Ts).
  { apply Rmult_le_pos; [|lra]. apply Rmult_le_pos; [|lra].
    apply Rmult_le_pos; [apply Rmult_le_pos; lra|].
    apply Rlt_le, Rinv_0_lt_compat; done. }
  assert (HvTs : 0 <= get X 1 j * Ts) by (apply Rmult_le_pos; lra).
  rewrite Ex, Ev. lra.
Qed.

Lemma C9mm_gama : 0 <= gama C9mm.
Proof. simpl. lra. Qed.

Lemma default_barrel_nonneg : 0 <= barrel_or_default None.
Proof. rewrite barrel_or_default_None. lra. Qed.

Lemma valid_run_monotone_witness :
  valid_bundle C9mm /\ in_range C9mm /\
  0 <= gama C9mm /\ 0 <= barrel_or_default None /\
  exists X : array2,
    sim C9mm true None = Ok (t, X) /\
    forall j : nat, (j < N)%nat ->
      0 <= get X 0 j /\ 0 <= get X 1 j /\ 0 <= get X 2 j <= p_peak C9mm /\
      ((j + 1 < N)%nat ->
       get X 0 j <= get X 0 (j + 1) /\ get X 1 j <= get X 1 (j + 1)).
Proof.
  split; [exact C9mm_valid|]. split; [exact C9mm_in_range|].
  split; [exact C9mm_gama|]. split; [exact default_barrel_nonneg|].
  exact (valid_run_monotone C9mm true None C9mm_valid C9mm_in_range
           C9mm_gama default_barrel_nonneg).
Defined.

(** X16: once a position read by the loop exceeds the barrel, on a valid
    bundle, every later sample has the bullet beyond the barrel, pressure
    0, force 0 and the velocity it had one sample after the exit: the
    muzzle velocity stays constant to the end of the run. *)
Theorem after_exit (self : Cartridge) (friction : bool)
    (l_barrel : option R) (ts : list R) (X : array2) (i : nat) :
  sim self friction l_barrel = Ok (ts, X) ->
  valid_bundle self -> 0 <= gama self -> 0 <= barrel_or_default l_barrel ->
  (i <= N - 2)%nat ->
  get X 0 i > barrel_or_default l_barrel ->
  forall j : nat, (i < j)%nat -> (j < N)%nat ->
    get X 0 j > barrel_or_default l_barrel /\
    get X 2 j = 0 /\ get X 3 j = 0 /\
    get X 1 j = get X 1 (i + 1).
Proof.
  intros Hsim Hvalid Hg Hlb Hi Hexit.
  pose proof (valid_moving _ _ _ _ _ Hsim Hvalid Hg Hlb) as Hmv.
  destruct (sim_inv _ _ _ _ _ Hsim) as (_ & _ & _ & Hst).
  pose proof N_val as HN.
  assert (HTs : 0 < Ts) by (unfold Ts; lra).
  (* one step from a position beyond the barrel *)
  assert (Hstep : forall k : nat, (k + 1 < N)%nat ->
            get X 0 k > barrel_or_default l_barrel ->
            get X 0 (k + 1) > barrel_or_default l_barrel /\
            get X 2 (k + 1) = 0 /\ get X 3 (k + 1) = 0).
  { intros k Hk Hout.
    destruct (Hst k Hk) as (F & HF & Ex & _ & Ep & EF).
    destruct (Hmv k) as (_ & Hv & _); [lia|].
    destruct (Rgt_dec (get X 0 k) (barrel_or_default l_barrel)) as [_|?];
      [|contradiction].
    rewrite !Rmult_0_l in Ep, EF, HF.
    assert (HvTs : 0 <= get X 1 k * Ts) by (apply Rmult_le_pos; lra).
    split; [rewrite Ex; lra|]. split; [exact Ep|].
    assert (HF0 : F = 0).
    { destruct friction; [|exact HF].
      destruct HF as (p_y & Hy & ->).
      destruct (Rlt_dec 0 p_y) as [?|Hn]; [reflexivity|].
      assert (Hpy : 0 <= p_y).
      { destruct Hvalid. unfold p_yield, py_div, t_case in Hy.
        destruct (Req_dec_T (d_case self) 0); [discriminate|].
        injection Hy as <-. unfold Rdiv.
        apply Rmult_le_pos; [|apply Rlt_le, Rinv_0_lt_compat; done].
        apply Rmult_le_pos; [lra|]. lra. }
      replace p_y with 0 by lra. ring. }
    rewrite EF, HF0, !Rmult_0_l. destruct (Rlt_dec (0 - 0) 0); lra. }
  intros j Hij Hj.
  replace j with (i + 1 + (j - i - 1))%nat by lia.
  assert (Hd : (i + 1 + (j - i - 1) < N)%nat) by lia.
  revert Hd. generalize (j - i - 1)%nat as d. clear j Hij Hj.
  induction d as [|d IH]; intros Hd.
  - rewrite Nat.add_0_r in *.
    destruct (Hstep i) as (H1 & H2 & H3); [lia|done|]. done.
  - destruct IH as (Hx & Hp & _ & Hv); [lia|].
    replace (i + 1 + S d)%nat with (i + 1 + d + 1)%nat in * by lia.
    destruct (Hstep (i + 1 + d)%nat) as (H1 & H2 & H3); [lia|done|].
    split; [exact H1|]. split; [exact H2|]. split; [exact H3|].
    destruct (Hst (i + 1 + d)%nat) as (F & _ & _ & Ev & _); [lia|].
    rewrite Ev, Hp, Hv. unfold Rdiv. ring.
Qed.

(** The first position the integration moves, in closed form. *)
Lemma third_position (self : Cartridge) (friction : bool)
    (l_barrel : option R) (ts : list R) (X : array2) :
  sim self friction l_barrel = Ok (ts, X) ->
  m_bullet self <> 0 -> v_case_val self <> 0 ->
  0 <= barrel_or_default l_barrel ->
  get X 0 3 =
    p_peak self * sigmoid 0 (alpha_s self) (t_peak self)
    * a_case_val self / m_bullet self * 0.9 * Ts * Ts.
Proof.
  intros Hsim Hm Hv Hlb.
  destruct (sim_inv _ _ _ _ _ Hsim) as (_ & _ & H0 & Hst).
  pose proof N_val as HN.
  destruct (Hst 0%nat) as (F0 & _ & Hx1 & Hv1 & Hp1 & _); [lia|].
  destruct (Hst 1%nat) as (F1 & _ & Hx2 & Hv2 & _); [lia|].
  destruct (Hst 2%nat) as (F2 & _ & Hx3 & _); [lia|].
  simpl in Hx1, Hv1, Hp1, Hx2, Hv2, Hx3.
  rewrite !H0 in Hx1, Hv1, Hp1 by lia.
  rewrite t_lookup in Hp1 by lia. simpl in Hp1.
  destruct (Rgt_dec 0 (barrel_or_default l_barrel)) as [Hgt|_]; [lra|].
  replace (v_case_val self / (v_case_val self + 0 * a_case_val self)) with 1 in Hp1
    by (field; lra).
  rewrite np_pow_one, Rmult_1_r, Rmult_0_l in Hp1.
  rewrite Hx3, Hx2, Hv2, Hx1, Hv1, Hp1, !H0 by lia. unfold Rdiv. ring.
Qed.

Lemma exp_6_upper : exp 6 <= 729.
Proof.
  pose proof exp_le_3 as H3. pose proof (exp_pos 1) as H0.
  replace 6 with (1 + 1 + 1 + 1 + 1 + 1) by ring.
  rewrite !exp_plus.
  assert (H9 : exp 1 * exp 1 <= 9) by nra.
  assert (H9' : 0 < exp 1 * exp 1) by nra.
  assert (H27 : exp 1 * exp 1 * exp 1 <= 27) by nra.
  assert (H27' : 0 < exp 1 * exp 1 * exp 1) by nra.
  assert (H81 : exp 1 * exp 1 * exp 1 * exp 1 <= 81) by nra.
  assert (H81' : 0 < exp 1 * exp 1 * exp 1 * exp 1) by nra.
  assert (H243 : exp 1 * exp 1 * exp 1 * exp 1 * exp 1 <= 243) by nra.
  assert (H243' : 0 < exp 1 * exp 1 * exp 1 * exp 1 * exp 1) by nra.
  nra.
Qed.

(** The 9 mm bullet has moved more than a nanometre by the third step. *)
Lemma C9mm_third_position :
  1e-9 < p_peak C9mm * sigmoid 0 (alpha_s C9mm) (t_peak C9mm)
         * a_case_val C9mm / m_bullet C9mm * 0.9 * Ts * Ts.
Proof.
  assert (Hs : / 730 <= sigmoid 0 (alpha_s C9mm) (t_peak C9mm)).
  { unfold sigmoid, py_exp. simpl.
    replace (- (6.0 / 1.5e-4) * (0 - 1.5e-4)) with 6 by lra.
    pose proof exp_6_upper. pose proof (exp_pos 6).
    unfold Rdiv. rewrite Rmult_1_l. apply Rinv_le_contravar; lra. }
  assert (Ha : 4e-5 <= a_case_val C9mm).
  { unfold a_case_val, u.mm. simpl. pose proof PI2_1. unfold u.mm. lra. }
  assert (Hp : 3.79e8 <= p_peak C9mm) by (simpl; unfold u.ksi; lra).
  assert (Hm : 0 < m_bullet C9mm <= 7.46e-3) by (simpl; unfold u.grains; lra).
  set (s := sigmoid 0 (alpha_s C9mm) (t_peak C9mm)) in *.
  set (a := a_case_val C9mm) in *. set (p := p_peak C9mm) in *.
  set (m := m_bullet C9mm) in *.
  assert (Hps : 5.19e5 <= p * s) by nra.
  assert (Hpsa : 20.7 <= p * s * a) by nra.
  assert (Hi : / 7.46e-3 <= / m) by (apply Rinv_le_contravar; lra).
  assert (Hq : 2774 <= p * s * a / m).
  { unfold Rdiv. assert (0 < / m) by (apply Rinv_0_lt_compat; lra). nra. }
  unfold Ts. nra.
Qed.

Lemma after_exit_witness :
  exists X : array2,
    sim C9mm true (Some 1e-9) = Ok (t, X) /\
    valid_bundle C9mm /\ 0 <= gama C9mm /\
    0 <= barrel_or_default (Some 1e-9) /\ (3 <= N - 2)%nat /\
    get X 0 3 > barrel_or_default (Some 1e-9) /\
    forall j : nat, (3 < j)%nat -> (j < N)%nat ->
      get X 0 j > barrel_or_default (Some 1e-9) /\
      get X 2 j = 0 /\ get X 3 j = 0 /\ get X 1 j = get X 1 (3 + 1).
Proof.
  destruct (sim_total C9mm true (Some 1e-9) C9mm_in_range (or_intror C9mm_d_case)) as [X HX].
  assert (Hb : barrel_or_default (Some 1e-9) = 1e-9)
    by (apply barrel_or_default_nonzero; lra).
  assert (Hlb : 0 <= barrel_or_default (Some 1e-9)) by (rewrite Hb; lra).
  assert (Hi : (3 <= N - 2)%nat) by (rewrite N_val; lia).
  assert (Hx : get X 0 3 > barrel_or_default (Some 1e-9)).
  { rewrite (third_position C9mm true (Some 1e-9) t X HX
               C9mm_m_bullet C9mm_v_case_val Hlb), Hb.
    exact C9mm_third_position. }
  exists X. split; [exact HX|]. split; [exact C9mm_valid|].
  split; [exact C9mm_gama|]. split; [exact Hlb|]. split; [exact Hi|].
  split; [exact Hx|].
  exact (after_exit C9mm true (Some 1e-9) t X 3 HX C9mm_valid C9mm_gama
           Hlb Hi Hx).
Defined.

(** ** cartridges.py: what [sim] reads *)

Lemma for_range_ext (c c' : Cartridge) (fr : bool) (lb : R) :
  (forall (X : array2) (i : nat), body c fr lb X i = body c' fr lb X i) ->
  forall (idx : list nat) (X : array2),
    for_range c fr lb idx X = for_range c' fr lb idx X.
Proof.
  intros Hb idx. induction idx as [|i idx IH]; intros X; simpl; [done|].
  rewrite Hb. destruct (body c' fr lb X i); simpl; [apply IH|done].
Qed.

(** X17: [sim] never reads [l_case], [l_round], [uts_case] or
    [gamma_case]: two bundles that agree on the other ten fields give the
    same result; and with friction off it does not read [yield_case] or
    [u_cw] either. *)
Theorem sim_reads (c c' : Cartridge) (l_barrel : option R) :
  m_bullet c = m_bullet c' -> d_chamber c = d_chamber c' ->
  d_case c = d_case c' -> l_case_i c = l_case_i c' ->
  p_peak c = p_peak c' -> t_peak c = t_peak c' ->
  alpha_s c = alpha_s c' -> gama c = gama c' ->
  sim c false l_barrel = sim c' false l_barrel /\
  (yield_case c = yield_case c' -> u_cw c = u_cw c' ->
   sim c true l_barrel = sim c' true l_barrel).
Proof.
  destruct c, c'. simpl. intros -> -> -> -> -> -> -> ->. split.
  - unfold sim. erewrite for_range_ext; [reflexivity|].
    intros X i. reflexivity.
  - intros -> ->. unfold sim. erewrite for_range_ext; [reflexivity|].
    intros X i. reflexivity.
Qed.

Lemma sim_reads_witness :
  let other :=
    mkCartridge (m_bullet C9mm) (d_chamber C9mm) (d_case C9mm) 7
      (l_case_i C9mm) 7 (yield_case C9mm) 7 7 (u_cw C9mm) (p_peak C9mm)
      (t_peak C9mm) (alpha_s C9mm) (gama C9mm) in
  sim C9mm false None = sim other false None /\
  sim C9mm true None = sim other true None.
Proof.
  intros other.
  destruct (sim_reads C9mm other None eq_refl eq_refl eq_refl eq_refl
              eq_refl eq_refl eq_refl eq_refl) as [Hoff Hon].
  split; [exact Hoff|]. exact (Hon eq_refl eq_refl).
Defined.

(** ** cartridges.py: the time vector *)

(** X18: the time vector has 3000 entries, strictly increasing from 0;
    its last entry is [Tf - Ts], so the horizon [Tf] itself is never
    sampled. *)
Theorem time_grid :
  length t = 3000%nat /\ t !!! 0%nat = 0 /\
  (forall j k : nat, (j < k)%nat -> (k < 3000)%nat -> t !!! j < t !!! k) /\
  t !!! 2999%nat = Tf - Ts /\
  (forall k : nat, (k < 3000)%nat -> t !!! k < Tf).
Proof.
  pose proof N_val as HN.
  assert (HTs : 0 < Ts) by (unfold Ts; lra).
  assert (Hlast : INR 2999 = 2999).
  { rewrite INR_IZR_INZ. reflexivity. }
  split; [by rewrite t_length|].
  split; [rewrite t_lookup by lia; simpl; ring|].
  split; [|split].
  - intros j k Hjk Hk. rewrite !t_lookup by lia.
    apply Rmult_lt_compat_r; [exact HTs|]. by apply lt_INR.
  - rewrite t_lookup by lia. rewrite Hlast. unfold Tf, Ts. lra.
  - intros k Hk. rewrite t_lookup by lia.
    assert (Hle : INR k <= INR 2999) by (apply le_INR; lia).
    rewrite Hlast in Hle. unfold Tf, Ts in *. nra.
Qed.

(** ** cartridges.py: the presets *)

Lemma CCCIMiniMag_valid : valid_bundle CCCIMiniMag.
Proof.
  split; unfold CCCIMiniMag, Cartridge_init, u.grains, u.inch, u.ksi;
    simpl; lra.
Qed.

Lemma C22_Al_valid : valid_bundle C22_Al.
Proof.
  split; unfold C22_Al, CCCIMiniMag, Cartridge_init, u.grains, u.inch, u.ksi;
    simpl; lra.
Qed.

(** X19: each of the three presets satisfies the invariants of the
    bundle, with a positive specific heat ratio, and its yield pressure,
    burst pressure and peak pressure are in this order: the peak chamber
    pressure is above the pressure the unsupported case would burst at.
    The base class with its [-1] fields is no valid bundle. *)
Theorem presets :
  Forall (fun c : Cartridge =>
            valid_bundle c /\ 0 < gama c /\
            exists p_y p_u : R,
              p_yield c = Ok p_y /\ p_uts c = Ok p_u /\
              0 < p_y /\ p_y < p_u /\ p_u < p_peak c)
    [CCCIMiniMag; C22_Al; C9mm] /\
  ~ valid_bundle Cartridge_init.
Proof.
  split.
  - repeat apply Forall_cons_2; try apply Forall_nil_2.
    + split; [exact CCCIMiniMag_valid|]. split; [simpl; lra|].
      unfold p_yield, p_uts, py_div, t_case. simpl.
      destruct (Req_dec_T (0.203 * u.inch) 0) as [H|_];
        [unfold u.inch in H; lra|].
      eexists _, _. split; [reflexivity|]. split; [reflexivity|].
      unfold u.inch, u.ksi. repeat split; lra.
    + split; [exact C22_Al_valid|]. split; [simpl; lra|].
      unfold p_yield, p_uts, py_div, t_case. simpl.
      destruct (Req_dec_T (0.203 * u.inch) 0) as [H|_];
        [unfold u.inch in H; lra|].
      eexists _, _. split; [reflexivity|]. split; [reflexivity|].
      unfold u.inch, u.ksi. repeat split; lra.
    + split; [exact C9mm_valid|]. split; [simpl; lra|].
      unfold p_yield, p_uts, py_div, t_case. simpl.
      destruct (Req_dec_T (9.03 * u.mm) 0) as [H|_];
        [unfold u.mm in H; lra|].
      eexists _, _. split; [reflexivity|]. split; [reflexivity|].
      unfold u.mm, u.ksi. repeat split; lra.
  - intros []. simpl in *. lra.
Qed.
